(** * RandomForest2Embedding: the unsupervised-to-supervised pipeline

    A shallow embedding of [randomForest2embedding/RandomForest2Embedding.py]:
    the column samplers, the synthetic feature generator, the discriminative
    dataset builder and the fit/transform skeleton of the embedder.

    Conventions of the model.
    - A dense 2-D [np.ndarray] is a record of its shape, its rows and its
      dtype (float64 or int64).  Cell values are exact rationals [Q]; storing
      into an int64 array truncates towards zero, and a float64 result too
      large for the format is detected by [isfinite].  Rounding of the
      mantissa and cells that hold an infinity or a NaN are outside the
      model; the properties are proved for every rational cell value, the
      representable ones among them.
    - The numpy [RandomState] object is a value [g : G] threaded through
      every call that draws from it; a function that receives the object
      returns its state after the call, also when it raises.
    - A Python exception is the [Raise] branch of [result]. *)

From Stdlib Require Import QArith Qminmax Qabs Lqa.
From stdpp Require Import base list sets strings.

(** ** Exceptions *)

Inductive exn : Type :=
| ValueError (msg : string)
| IndexError
| OverflowError (msg : string)
| NotImplementedError (msg : string)
| UndefinedState.

Inductive result (A : Type) : Type :=
| Ok (a : A)
| Raise (e : exn).
Arguments Ok {A} a.
Arguments Raise {A} e.

(** [a[idx]] with an integer index array: every index is looked up, an index
    past the end raises [IndexError]. *)
Fixpoint getitem {A} (a : list A) (idx : list nat) : result (list A) :=
  match idx with
  | [] => Ok []
  | i :: rest =>
      match a !! i with
      | None => Raise IndexError
      | Some v =>
          match getitem a rest with
          | Ok vs => Ok (v :: vs)
          | Raise e => Raise e
          end
      end
  end.

(** ** float64 and int64 values *)

(** The least magnitude that rounds to an infinity in float64: halfway
    between the largest double, [2^1024 - 2^971], and [2^1024]. *)
Definition float64_overflow : Q := inject_Z (2 ^ 1024 - 2 ^ 970).

(** [npy_isfinite] of the double that an operation with exact result [x]
    yields. *)
Definition isfinite (x : Q) : bool :=
  negb (Qle_bool float64_overflow (Qabs x)).

(** The dtypes of the model. *)
Inductive np_dtype : Type := float64 | int64.

(** The conversion of a double to an int64: the fraction is dropped. *)
Definition Qtruncate (v : Q) : Z := Z.quot (Qnum v) (Z.pos (Qden v)).

(** What a cell of dtype [d] holds after [v] is stored in it. *)
Definition astype (d : np_dtype) (v : Q) : Q :=
  match d with
  | float64 => v
  | int64 => inject_Z (Qtruncate v)
  end.

(** [np.result_type]: the dtype of an array built from arrays of two
    dtypes. *)
Definition result_type (a b : np_dtype) : np_dtype :=
  match a, b with
  | int64, int64 => int64
  | _, _ => float64
  end.

(** ** The random generator

    [numpy.random.RandomState] as the program uses it: built from an integer
    seed, and drawing through two primitives of the Mersenne-Twister core,
    [rk_interval max] (an integer of [0..max], both ends included) and
    [rk_double] (a double of [0,1)). *)

Class RandomState (G : Type) : Type := {
  RandomState_seed : Z → G;
  rk_interval : nat → G → nat * G;
  rk_double : G → Q * G;
  rk_interval_le : ∀ max g, (rk_interval max g).1 ≤ max;
  rk_double_range : ∀ g, (0 <= (rk_double g).1)%Q ∧ ((rk_double g).1 < 1)%Q
}.

(** What a [random_state] parameter can hold: an integer seed or a generator
    object. *)
Inductive random_state_arg (G : Type) : Type :=
| Seed (s : Z)
| Instance_ (g : G).
Arguments Seed {G} s.
Arguments Instance_ {G} g.

(** The state-and-exception monad of code that draws from a generator. *)
Definition M (G A : Type) : Type := G → result A * G.

Definition ret {G A} (a : A) : M G A := λ g, (Ok a, g).
Definition raise {G A} (e : exn) : M G A := λ g, (Raise e, g).
Definition bind {G A B} (m : M G A) (k : A → M G B) : M G B :=
  λ g, match m g with
       | (Ok a, g') => k a g'
       | (Raise e, g') => (Raise e, g')
       end.
Definition lift {G A} (r : result A) : M G A := λ g, (r, g).

Notation "'let*' x ':=' m 'in' k" := (bind m (λ x, k))
  (at level 10, x pattern, m at level 100, k at level 200).

Section Sampling.
Context {G : Type} `{RS : RandomState G}.

(** [sklearn.utils.check_random_state]: a seed builds a new generator, a
    generator object is returned as it is. *)
Definition check_random_state (random_state : random_state_arg G) : G :=
  match random_state with
  | Seed s => RandomState_seed s
  | Instance_ g => g
  end.

(** [size] successive draws of [low..high-1], in the order they fill the
    result. *)
Fixpoint randint_fill (low high : nat) (size : nat) (g : G) : list nat * G :=
  match size with
  | 0 => ([], g)
  | S k =>
      let '(v, g1) := rk_interval (high - low - 1) g in
      let '(vs, g2) := randint_fill low high k g1 in
      (low + v :: vs, g2)
  end.

(** [RandomState.randint(low, high, size)]; an empty result is returned
    before the bounds are looked at. *)
Definition randint (low high : nat) (size : nat) : M G (list nat) :=
  if size =? 0 then ret []
  else if high <=? low then raise (ValueError "low >= high")
  else λ g, let '(vs, g') := randint_fill low high size g in (Ok vs, g').

(** [RandomState.choice(a, size, replace=True)] on a 1-D array: indices
    drawn by [randint], then [a[idx]]. *)
Definition choice {A} (a : list A) (size : nat) : M G (list A) :=
  let pop_size := length a in
  if (pop_size =? 0) && negb (size =? 0) then
    raise (ValueError "'a' cannot be empty unless no samples are taken")
  else
    let* idx := randint 0 pop_size size in
    lift (getitem a idx).

(** [size] successive values [loc + scale * rk_double()]. *)
Fixpoint uniform_fill (loc scale : Q) (size : nat) (g : G) : list Q * G :=
  match size with
  | 0 => ([], g)
  | S k =>
      let '(u, g1) := rk_double g in
      let '(vs, g2) := uniform_fill loc scale k g1 in
      ((loc + scale * u)%Q :: vs, g2)
  end.

(** [RandomState.uniform(low, high, size)]: the range [high - low] is
    computed first and refused when it is not a finite double; each value is
    then [low + (high - low) * rk_double()]. *)
Definition uniform (low high : Q) (size : nat) : M G (list Q) :=
  let fscale := (high - low)%Q in
  if isfinite fscale then
    λ g, let '(vs, g') := uniform_fill low fscale size g in (Ok vs, g')
  else raise (OverflowError "Range exceeds valid bounds").

(** [np.min] and [np.max] of a 1-D array; an empty array has neither. *)
Definition np_min (X : list Q) : result Q :=
  match X with
  | [] => Raise (ValueError "zero-size array to reduction operation minimum which has no identity")
  | x :: rest => Ok (foldl Qmin x rest)
  end.

Definition np_max (X : list Q) : result Q :=
  match X with
  | [] => Raise (ValueError "zero-size array to reduction operation maximum which has no identity")
  | x :: rest => Ok (foldl Qmax x rest)
  end.

(** *** Column Sampler *)

Definition bootstrap_sample_column {A} (X : list A) (n_samples : option nat)
    (random_state : random_state_arg G) : result (list A) * G :=
  let random_state := check_random_state random_state in
  let n_samples := match n_samples with None => length X | Some n => n end in
  choice X n_samples random_state.

Definition uniform_sample_column (X : list Q) (n_samples : option nat)
    (random_state : random_state_arg G) : result (list Q) * G :=
  let random_state := check_random_state random_state in
  let n_samples := match n_samples with None => length X | Some n => n end in
  (let* min_X := lift (np_min X) in
   let* max_X := lift (np_max X) in
   uniform min_X max_X n_samples)
    random_state.

End Sampling.

(** ** Dense 2-D arrays *)

Record ndarray : Type := mk_ndarray {
  dtype : np_dtype;
  shape0 : nat;
  shape1 : nat;
  rows : list (list Q)
}.

(** An array holds [shape0] rows of [shape1] cells each, and every cell is a
    value of its dtype (in an int64 array, an integer). *)
Definition wf (X : ndarray) : Prop :=
  length (rows X) = shape0 X ∧ Forall (λ r, length r = shape1 X) (rows X) ∧
  Forall (Forall (λ v, astype (dtype X) v = v)) (rows X).

(** [np.empty_like(X)]: a new array of the shape and dtype of [X].  Its
    cells are uninitialised in numpy; they read as zero here. *)
Definition empty_like (X : ndarray) : ndarray :=
  {| dtype := dtype X; shape0 := shape0 X; shape1 := shape1 X;
     rows := replicate (shape0 X) (replicate (shape1 X) 0%Q) |}.

(** [X[:, column]] *)
Definition get_column (X : ndarray) (column : nat) : result (list Q) :=
  if column <? shape1 X then Ok (map (λ r, nth column r 0%Q) (rows X))
  else Raise IndexError.

(** [X[:, column] = values]: a column of [shape0] values is stored cell by
    cell, a single value is broadcast, any other length is refused.  The
    values are converted to the dtype of [X] as they are stored. *)
Definition set_column (X : ndarray) (column : nat) (values : list Q)
    : result ndarray :=
  if column <? shape1 X then
    if length values =? shape0 X then
      Ok {| dtype := dtype X; shape0 := shape0 X; shape1 := shape1 X;
            rows := zip_with (λ r v, <[column := astype (dtype X) v]> r)
                      (rows X) values |}
    else
      match values with
      | [v] => Ok {| dtype := dtype X; shape0 := shape0 X;
                     shape1 := shape1 X;
                     rows := map (λ r, <[column := astype (dtype X) v]> r)
                               (rows X) |}
      | _ => Raise (ValueError "could not broadcast input array")
      end
  else Raise IndexError.

(** [np.vstack((A, B))]; an int64 value is the same number as a float64. *)
Definition vstack (A B : ndarray) : result ndarray :=
  if shape1 A =? shape1 B then
    Ok {| dtype := result_type (dtype A) (dtype B);
          shape0 := shape0 A + shape0 B; shape1 := shape1 A;
          rows := rows A ++ rows B |}
  else Raise (ValueError "all the input array dimensions except for the concatenation axis must match exactly").

(** [X[indices, :]] *)
Definition take_rows (X : ndarray) (indices : list nat) : result ndarray :=
  match getitem (rows X) indices with
  | Ok rs => Ok {| dtype := dtype X; shape0 := length indices;
                   shape1 := shape1 X; rows := rs |}
  | Raise e => Raise e
  end.

(** [np.ones(n)], [np.zeros(n)], [np.arange(n)] *)
Definition ones (n : nat) : list Q := replicate n 1%Q.
Definition zeros (n : nat) : list Q := replicate n 0%Q.
Definition arange (n : nat) : list nat := seq 0 n.

(** [x[i], x[j] = x[j], x[i]].  The shuffle only swaps positions inside the
    array ([j <= i < n]); outside of it the array is left as it is. *)
Definition swap {A} (x : list A) (i j : nat) : list A :=
  match x !! i, x !! j with
  | Some xi, Some xj => <[j := xi]> (<[i := xj]> x)
  | _, _ => x
  end.

Section Dataset.
Context {G : Type} `{RS : RandomState G}.

(** [RandomState.shuffle] on a 1-D array:
    [for i in reversed(range(1, n)): j = rk_interval(i); swap x[i], x[j]]. *)
Fixpoint shuffle_from {A} (i : nat) (x : list A) (g : G) : list A * G :=
  match i with
  | 0 => (x, g)
  | S i' =>
      let '(j, g') := rk_interval i g in
      shuffle_from i' (swap x i j) g'
  end.

Definition shuffle {A} (x : list A) (g : G) : list A * G :=
  shuffle_from (length x - 1) x g.

(** [RandomState.permutation(x)] on an array: shuffle a copy. *)
Definition permutation {A} (x : list A) : M G (list A) :=
  λ g, let '(arr, g') := shuffle x g in (Ok arr, g').

(** *** Synthetic Feature Generator *)

(** The body of [for column in range(n_features)], over the columns left. *)
Fixpoint generate_synthetic_features_loop (X : ndarray) (method : string)
    (columns : list nat) (synth_X : ndarray) : M G ndarray :=
  match columns with
  | [] => ret synth_X
  | column :: columns' =>
      if String.eqb method "bootstrap" then
        let* X_column := lift (get_column X column) in
        let* sampled :=
          (λ g, bootstrap_sample_column X_column None (Instance_ g)) in
        let* synth_X := lift (set_column synth_X column sampled) in
        generate_synthetic_features_loop X method columns' synth_X
      else if String.eqb method "uniform" then
        let* X_column := lift (get_column X column) in
        let* sampled :=
          (λ g, uniform_sample_column X_column None (Instance_ g)) in
        let* synth_X := lift (set_column synth_X column sampled) in
        generate_synthetic_features_loop X method columns' synth_X
      else raise (ValueError "method must be either `bootstrap` or `uniform`.")
  end.

Definition generate_synthetic_features (X : ndarray) (method : string)
    (random_state : random_state_arg G) : result ndarray * G :=
  let random_state := check_random_state random_state in
  let n_features := shape1 X in
  let synth_X := empty_like X in
  generate_synthetic_features_loop X method (seq 0 n_features) synth_X
    random_state.

(** *** Discriminative Dataset Builder *)

Definition generate_discriminative_dataset (X : ndarray) (method : string)
    (random_state : random_state_arg G) : result (ndarray * list Q) * G :=
  let random_state := check_random_state random_state in
  let n_samples := shape0 X in
  (let* synth_X :=
     (λ g, generate_synthetic_features X method (Instance_ g)) in
   let* X_ := lift (vstack X synth_X) in
   let y_ := ones n_samples ++ zeros n_samples in
   let* permutation_indices := permutation (arange (shape0 X_)) in
   let* X_ := lift (take_rows X_ permutation_indices) in
   let* y_ := lift (getitem y_ permutation_indices) in
   ret (X_, y_))
    random_state.

End Dataset.

(** ** Forest-Proximity Embedder *)

(** The constructor's parameters. *)
Record config : Type := mk_config {
  n_estimators : nat;
  criterion : string;
  max_depth : option nat;
  min_samples_split : nat;
  min_samples_leaf : nat;
  min_weight_fraction_leaf : Q;
  max_features : string;
  max_leaf_nodes : option nat;
  bootstrap : bool;
  method : string;
  n_jobs : Z;
  random_state : option Z;
  verbose : nat;
  warm_start : bool
}.

Definition with_random_state (c : config) (rs : option Z) : config :=
  {| n_estimators := n_estimators c; criterion := criterion c;
     max_depth := max_depth c; min_samples_split := min_samples_split c;
     min_samples_leaf := min_samples_leaf c;
     min_weight_fraction_leaf := min_weight_fraction_leaf c;
     max_features := max_features c; max_leaf_nodes := max_leaf_nodes c;
     bootstrap := bootstrap c; method := method c; n_jobs := n_jobs c;
     random_state := rs; verbose := verbose c; warm_start := warm_start c |}.

(** The external collaborators of the embedder (sklearn): input validation,
    training of the tree ensemble, the decision paths of a trained ensemble
    (as a dense 0/1 matrix) and the t-SNE projection, which receives the
    component count, its seed and its metric. *)
Class Sklearn (Trees : Type) : Type := {
  check_array : ndarray → result ndarray;
  BaseForest_fit : config → ndarray → list Q → option (list Q) → result Trees;
  trained_decision_path : Trees → ndarray → result ndarray;
  TSNE_fit_transform : nat → Z → string → ndarray → result ndarray
}.

(** An embedder object: its parameters and, once a fit has succeeded, the
    trained trees. *)
Record RandomForest2Embedding (Trees : Type) : Type := mk_embedder {
  params : config;
  estimators_ : option Trees
}.
Arguments mk_embedder {Trees} params estimators_.
Arguments params {Trees} r.
Arguments estimators_ {Trees} r.

Section Embedder.
Context {G : Type} `{RS : RandomState G}.
Context {Trees : Type} `{SK : Sklearn Trees}.

Definition calcul_embedding (nodes : ndarray) (n_components : nat)
    : result ndarray :=
  TSNE_fit_transform n_components 12345%Z "hamming" nodes.

Definition __init__ (c : config) : RandomForest2Embedding Trees :=
  {| params := c; estimators_ := None |}.

(** Modelled from the spec: the inherited [BaseForest.decision_path], which
    is sklearn's and not part of the source file.  The spec gives its
    behaviour on an embedder that was never trained: "classifier not yet
    trained when transform is called directly -> error (undefined-state
    misuse)", the [UndefinedState] of its error taxonomy. *)
Definition decision_path (self : RandomForest2Embedding Trees) (X : ndarray)
    : result ndarray :=
  match estimators_ self with
  | None => Raise UndefinedState
  | Some trees => trained_decision_path trees X
  end.

Definition transform (self : RandomForest2Embedding Trees) (X : ndarray)
    (n_components : nat) : result ndarray :=
  match decision_path self X with
  | Raise e => Raise e
  | Ok path => calcul_embedding path n_components
  end.

Definition _set_oob_score (self : RandomForest2Embedding Trees) (X : ndarray)
    (y : list Q) : result unit :=
  Raise (NotImplementedError "OOB score not supported").

(** [fit_transform] on a dense [X] (the branch for sparse input only sorts
    indices); [y] is accepted and never read.  The object after the call is
    returned next to the outcome. *)
Definition fit_transform (self : RandomForest2Embedding Trees) (X : ndarray)
    (y : option (list Q)) (sample_weight : option (list Q))
    (n_components : nat)
    : result ndarray * RandomForest2Embedding Trees :=
  match check_array X with
  | Raise e => (Raise e, self)
  | Ok X =>
      match (generate_discriminative_dataset X (method (params self))
               (Seed 1234%Z)).1 with
      | Raise e => (Raise e, self)
      | Ok (X_, y_) =>
          match BaseForest_fit (params self) X_ y_ sample_weight with
          | Raise e => (Raise e, self)
          | Ok trees =>
              let self := {| params := params self;
                             estimators_ := Some trees |} in
              (transform self X n_components, self)
          end
      end
  end.

Definition fit (self : RandomForest2Embedding Trees) (X : ndarray)
    (y : option (list Q)) (sample_weight : option (list Q))
    : result unit * RandomForest2Embedding Trees :=
  match fit_transform self X y sample_weight 2 with
  | (Ok _, self) => (Ok (), self)
  | (Raise e, self) => (Raise e, self)
  end.

End Embedder.

(** ** A concrete generator

    A linear congruential generator with the interface of [RandomState]; it
    stands in for the Mersenne Twister when the model is run on examples. *)

Definition lcg_next (g : Z) : Z := ((g * 1103515245 + 12345) mod 2147483648)%Z.

Definition lcg_interval (max : nat) (g : Z) : nat * Z :=
  let g' := lcg_next g in
  (Z.to_nat ((g' / 65536) mod (Z.of_nat max + 1)), g').

Definition lcg_double (g : Z) : Q * Z :=
  let g' := lcg_next g in
  (Qmake g' 2147483648, g').

#[export, refine] Instance lcg : RandomState Z := {|
  RandomState_seed := λ s, s;
  rk_interval := lcg_interval;
  rk_double := lcg_double
|}.
Proof.
  - intros max g. unfold lcg_interval. cbn [fst].
    pose proof (Z.mod_pos_bound (lcg_next g / 65536) (Z.of_nat max + 1)).
    lia.
  - intros g. unfold lcg_double. cbn [fst].
    assert (0 ≤ lcg_next g < 2147483648)%Z
      by (unfold lcg_next; apply Z.mod_pos_bound; lia).
    unfold Qle, Qlt. cbn [Qnum Qden]. lia.
Defined.

(** A recording double of the sklearn collaborators: validation accepts every
    array, and the "trained trees" are the training set itself, so that what
    [fit_transform] hands to the training step can be read back. *)
#[export] Instance recording : Sklearn (ndarray * list Q) := {|
  check_array := λ X, Ok X;
  BaseForest_fit := λ _ X_ y_ _, Ok (X_, y_);
  trained_decision_path := λ _ X, Ok X;
  TSNE_fit_transform := λ _ _ _ nodes, Ok nodes
|}.

Definition X32 : ndarray :=
  {| dtype := float64; shape0 := 3; shape1 := 2;
     rows := [[1#1; 10#1]; [2#1; 20#1]; [3#1; 30#1]]%Q |}.

(** ** Observations used in the statements *)

(** The number of entries of a label vector that equal [b]. *)
Fixpoint count_label (b : Q) (y : list Q) : nat :=
  match y with
  | [] => 0
  | v :: y' => (if Qeq_bool v b then 1 else 0) + count_label b y'
  end.

(** Two calls of the builder, one after the other, with the same
    [random_state] argument.  A seed is the same number in both calls; a
    generator object is the same object, which the second call finds in the
    state the first call left it in. *)
Definition two_calls {G} `{RandomState G} (X : ndarray) (method : string)
    (random_state : random_state_arg G)
    : result (ndarray * list Q) * result (ndarray * list Q) :=
  let '(first, g1) := generate_discriminative_dataset X method random_state in
  let again := match random_state with
               | Seed s => Seed s
               | Instance_ _ => Instance_ g1
               end in
  let '(second, _) := generate_discriminative_dataset X method again in
  (first, second).

(** The training set that [fit_transform] hands to the training step, read
    back from the recording collaborators. *)
Definition training_set {G} `{RandomState G}
    (self : RandomForest2Embedding (ndarray * list Q)) (X : ndarray)
    : option (ndarray * list Q) :=
  estimators_ (fit_transform self X None None 2).2.

(** Whether the range [np.max - np.min] of a column is a finite double, which
    is what [RandomState.uniform] asks of it.  (A column without values has
    no range.) *)
Definition column_range_finite (X_column : list Q) : bool :=
  match np_min X_column, np_max X_column with
  | Ok min_X, Ok max_X => isfinite (max_X - min_X)
  | _, _ => true
  end.

(** The same of every column of a matrix. *)
Definition ranges_finite (X : ndarray) : bool :=
  forallb (λ column,
             match get_column X column with
             | Ok X_column => column_range_finite X_column
             | Raise _ => true
             end)
          (seq 0 (shape1 X)).

(** An int64 matrix, and a float64 matrix whose only column spans more than
    the float64 range. *)
Definition X32i : ndarray :=
  {| dtype := int64; shape0 := 3; shape1 := 2;
     rows := [[1#1; 10#1]; [2#1; 20#1]; [3#1; 30#1]]%Q |}.

Definition X21wide : ndarray :=
  {| dtype := float64; shape0 := 2; shape1 := 1;
     rows := [[inject_Z (- (17 * 10 ^ 307))]; [inject_Z (17 * 10 ^ 307)]] |}.

(** One iteration of the generator's loop, seen from outside: [sampled] is
    the column that the sampler of [method] returns for [X_column] when the
    generator is in state [g], and [g'] is the state it leaves. *)
Definition sampled_by {G} `{RandomState G} (method : string)
    (X_column : list Q) (g : G) (sampled : list Q) (g' : G) : Prop :=
  (method = "bootstrap" ∧
   bootstrap_sample_column X_column None (Instance_ g) = (Ok sampled, g')) ∨
  (method = "uniform" ∧
   uniform_sample_column X_column None (Instance_ g) = (Ok sampled, g')).

(** The parameters of an embedder constructed without arguments. *)
Definition default_config : config :=
  {| n_estimators := 10; criterion := "gini"; max_depth := Some 5;
     min_samples_split := 2; min_samples_leaf := 1;
     min_weight_fraction_leaf := 0%Q; max_features := "auto";
     max_leaf_nodes := None; bootstrap := true; method := "bootstrap";
     n_jobs := (-1)%Z; random_state := None; verbose := 0;
     warm_start := false |}.

Definition with_method (c : config) (m : string) : config :=
  {| n_estimators := n_estimators c; criterion := criterion c;
     max_depth := max_depth c; min_samples_split := min_samples_split c;
     min_samples_leaf := min_samples_leaf c;
     min_weight_fraction_leaf := min_weight_fraction_leaf c;
     max_features := max_features c; max_leaf_nodes := max_leaf_nodes c;
     bootstrap := bootstrap c; method := m; n_jobs := n_jobs c;
     random_state := random_state c; verbose := verbose c;
     warm_start := warm_start c |}.

(** A second example matrix: the first column of [X32], another second
    column. *)
Definition X32' : ndarray :=
  {| dtype := float64; shape0 := 3; shape1 := 2;
     rows := [[1#1; 7#1]; [2#1; 7#1]; [3#1; 8#1]]%Q |}.

(** * Properties *)

(** ** Integer-array indexing *)

Lemma getitem_Forall2 {A} (a : list A) idx vs :
  getitem a idx = Ok vs ↔ Forall2 (λ i v, a !! i = Some v) idx vs.
Proof.
  revert vs. induction idx as [|i idx IH]; intros vs; simpl.
  - split.
    + intros [= <-]. constructor.
    + intros H. by inversion H.
  - destruct (a !! i) as [v|] eqn:Hi.
    + destruct (getitem a idx) as [vs'|e] eqn:Hrest.
      * split.
        -- intros [= <-]. constructor; [done | by apply IH].
        -- intros H. inversion H as [|? v' ? vs'' Hv Hvs]; subst.
           apply IH in Hvs. congruence.
      * split; [done |].
        intros H. inversion H as [|? v' ? vs'' Hv Hvs]; subst.
        apply IH in Hvs. congruence.
    + split; [done |]. intros H. inversion H; congruence.
Qed.

Lemma getitem_in_range {A} (a : list A) idx :
  Forall (λ i, i < length a) idx → ∃ vs, getitem a idx = Ok vs.
Proof.
  induction 1 as [|i idx Hi _ [vs IH]]; simpl; [by eexists |].
  destruct (lookup_lt_is_Some_2 a i Hi) as [v ->]. rewrite IH. by eexists.
Qed.

Lemma getitem_length {A} (a : list A) idx vs :
  getitem a idx = Ok vs → length vs = length idx.
Proof. intros H%getitem_Forall2. symmetry. by eapply Forall2_length. Qed.

Lemma getitem_elem_of {A} (a : list A) idx vs :
  getitem a idx = Ok vs → Forall (λ v, v ∈ a) vs.
Proof.
  intros H%getitem_Forall2. induction H as [|i v idx vs Hi _ IH]; constructor.
  - by eapply list_elem_of_lookup_2.
  - done.
Qed.

Lemma getitem_lookup_Some {A} (a : list A) idx vs k i :
  getitem a idx = Ok vs → idx !! k = Some i →
  ∃ v, a !! i = Some v ∧ vs !! k = Some v.
Proof.
  intros H%getitem_Forall2 Hk.
  destruct (Forall2_lookup_l _ _ _ _ _ H Hk) as (v & Hv & Hav). by exists v.
Qed.

Lemma getitem_zip {A B} (a : list A) (b : list B) idx va vb :
  getitem a idx = Ok va → getitem b idx = Ok vb →
  getitem (zip a b) idx = Ok (zip va vb).
Proof.
  rewrite !getitem_Forall2. intros Ha. revert vb.
  induction Ha as [|i x idx va Hx _ IH]; intros vb Hb.
  - inversion Hb. constructor.
  - inversion Hb as [|? y ? vb' Hy Hvb]; subst. simpl. constructor.
    + apply lookup_zip_with_Some. by exists x, y.
    + by apply IH.
Qed.

(** Indexing by a rearrangement of [0..n-1] rearranges the array. *)
Lemma fmap_nth_seq {A} (a : list A) d :
  (λ i, nth i a d) <$> seq 0 (length a) = a.
Proof.
  apply list_eq. intros k. rewrite list_lookup_fmap.
  destruct (decide (k < length a)) as [Hk|Hk].
  - rewrite lookup_seq_lt by done. simpl.
    destruct (lookup_lt_is_Some_2 a k Hk) as [v Hv].
    by rewrite nth_lookup, Hv.
  - rewrite lookup_seq_ge by lia. simpl. symmetry. apply lookup_ge_None. lia.
Qed.

Lemma getitem_fmap_nth {A} (a : list A) idx vs d :
  getitem a idx = Ok vs → vs = (λ i, nth i a d) <$> idx.
Proof.
  intros H%getitem_Forall2. induction H as [|i v idx vs Hi _ IH]; [done |].
  simpl. by rewrite nth_lookup, Hi, IH.
Qed.

Lemma getitem_Permutation {A} (a : list A) idx vs :
  idx ≡ₚ seq 0 (length a) → getitem a idx = Ok vs → vs ≡ₚ a.
Proof.
  intros Hp H. destruct a as [|d a'] eqn:Ha.
  - simpl in Hp. apply Permutation_nil_r in Hp as ->. simpl in H.
    by injection H as <-.
  - rewrite <- Ha in *. rewrite (getitem_fmap_nth _ _ _ d H).
    etransitivity; [by apply fmap_Permutation | by rewrite fmap_nth_seq].
Qed.

(** ** [np.min] and [np.max] *)

Lemma foldl_Qmin_le (x : Q) rest :
  (foldl Qmin x rest <= x)%Q ∧ Forall (λ v, (foldl Qmin x rest <= v)%Q) rest.
Proof.
  revert x. induction rest as [|y rest IH]; intros x; simpl.
  - split; [apply Qle_refl | constructor].
  - destruct (IH (Qmin x y)) as [H1 H2]. split.
    + eapply Qle_trans; [exact H1 | apply Q.le_min_l].
    + constructor; [| done]. eapply Qle_trans; [exact H1 | apply Q.le_min_r].
Qed.

Lemma foldl_Qmax_ge (x : Q) rest :
  (x <= foldl Qmax x rest)%Q ∧ Forall (λ v, (v <= foldl Qmax x rest)%Q) rest.
Proof.
  revert x. induction rest as [|y rest IH]; intros x; simpl.
  - split; [apply Qle_refl | constructor].
  - destruct (IH (Qmax x y)) as [H1 H2]. split.
    + eapply Qle_trans; [apply Q.le_max_l | exact H1].
    + constructor; [| done]. eapply Qle_trans; [apply Q.le_max_r | exact H1].
Qed.

Lemma foldl_Qmin_elem (x : Q) rest : foldl Qmin x rest ∈ x :: rest.
Proof.
  revert x. induction rest as [|y rest IH]; intros x; simpl; [set_solver |].
  specialize (IH (Qmin x y)).
  revert IH. unfold Qmin at 1 3, GenericMinMax.gmin.
  destruct (x ?= y)%Q; intros H; apply elem_of_cons in H as [H|H];
    rewrite !elem_of_cons; auto.
Qed.

Lemma foldl_Qmax_elem (x : Q) rest : foldl Qmax x rest ∈ x :: rest.
Proof.
  revert x. induction rest as [|y rest IH]; intros x; simpl; [set_solver |].
  specialize (IH (Qmax x y)).
  revert IH. unfold Qmax at 1 3, GenericMinMax.gmax.
  destruct (x ?= y)%Q; intros H; apply elem_of_cons in H as [H|H];
    rewrite !elem_of_cons; auto.
Qed.

Lemma np_min_spec (X : list Q) :
  X ≠ [] → ∃ m, np_min X = Ok m ∧ m ∈ X ∧ Forall (λ v, (m <= v)%Q) X.
Proof.
  destruct X as [|x rest]; [done |]. intros _. eexists. split; [done |].
  split; [apply foldl_Qmin_elem |].
  destruct (foldl_Qmin_le x rest). by constructor.
Qed.

Lemma np_max_spec (X : list Q) :
  X ≠ [] → ∃ m, np_max X = Ok m ∧ m ∈ X ∧ Forall (λ v, (v <= m)%Q) X.
Proof.
  destruct X as [|x rest]; [done |]. intros _. eexists. split; [done |].
  split; [apply foldl_Qmax_elem |].
  destruct (foldl_Qmax_ge x rest). by constructor.
Qed.

Section SamplingProperties.
Context {G : Type} `{RS : RandomState G}.

Lemma randint_fill_spec low high size g :
  low < high →
  length (randint_fill low high size g).1 = size ∧
  Forall (λ v, low ≤ v < high) (randint_fill low high size g).1.
Proof.
  intros Hlt. revert g. induction size as [|k IH]; intros g; simpl.
  - split; [done | constructor].
  - pose proof (rk_interval_le (high - low - 1) g) as Hle.
    destruct (rk_interval (high - low - 1) g) as [v g1]. simpl in Hle.
    destruct (IH g1) as [IH1 IH2].
    destruct (randint_fill low high k g1) as [vs g2]. simpl in *.
    split; [by f_equal |]. constructor; [lia | done].
Qed.

Lemma choice_returns {A} (a : list A) size g :
  a ≠ [] →
  ∃ vs g', choice a size g = (Ok vs, g') ∧ length vs = size ∧
           Forall (λ v, v ∈ a) vs.
Proof.
  intros Ha. unfold choice.
  assert (0 < length a) as Hlen by (destruct a; [done | simpl; lia]).
  destruct (Nat.eqb_spec (length a) 0) as [|_]; [lia |]. cbn [andb].
  unfold bind, randint, lift, ret.
  destruct (Nat.eqb_spec size 0) as [-> |_].
  { exists [], g. simpl. by split_and!. }
  destruct (Nat.leb_spec (length a) 0) as [|_]; [lia |].
  destruct (randint_fill_spec 0 (length a) size g Hlen) as [Hl Hr].
  destruct (randint_fill 0 (length a) size g) as [idx g']. simpl in *.
  destruct (getitem_in_range a idx) as [vs Hvs].
  { eapply Forall_impl; [exact Hr |]. simpl. lia. }
  exists vs, g'. rewrite Hvs. split; [done |]. split.
  - apply getitem_length in Hvs. lia.
  - by eapply getitem_elem_of.
Qed.

Lemma choice_sound {A} (a : list A) size g vs g' :
  choice a size g = (Ok vs, g') → length vs = size ∧ Forall (λ v, v ∈ a) vs.
Proof.
  intros H. destruct a as [|x a'].
  - unfold choice, bind, randint, lift, ret in H. simpl in H.
    destruct size as [|size]; simpl in H; [| discriminate].
    injection H as <- <-. by split.
  - destruct (choice_returns (x :: a') size g) as (vs' & g'' & E & ? & ?);
      [done |].
    rewrite E in H. by injection H as <- <-.
Qed.

Lemma uniform_fill_spec loc scale size g :
  (0 <= scale)%Q →
  length (uniform_fill loc scale size g).1 = size ∧
  Forall (λ v, (loc <= v)%Q ∧ (v <= loc + scale)%Q)
    (uniform_fill loc scale size g).1.
Proof.
  intros Hle. revert g. induction size as [|k IH]; intros g; simpl.
  - split; [done | constructor].
  - destruct (rk_double_range g) as [Hu0 Hu1].
    destruct (rk_double g) as [u g1]. simpl in Hu0, Hu1.
    destruct (IH g1) as [IH1 IH2].
    destruct (uniform_fill loc scale k g1) as [vs g2]. simpl in *.
    split; [by f_equal |]. constructor; [| done]. split; nra.
Qed.

Lemma uniform_returns low high size g :
  isfinite (high - low) = true →
  ∃ vs g', uniform low high size g = (Ok vs, g').
Proof.
  intros Hfin. unfold uniform. rewrite Hfin.
  destruct (uniform_fill low (high - low) size g) as [vs g']. by eexists _, _.
Qed.


Lemma uniform_sound low high size g vs g' :
  (low <= high)%Q → uniform low high size g = (Ok vs, g') →
  isfinite (high - low) = true ∧ length vs = size ∧
  Forall (λ v, (low <= v)%Q ∧ (v <= high)%Q) vs.
Proof.
  intros Hle. unfold uniform.
  destruct (isfinite (high - low)); [| done].
  assert (0 <= high - low)%Q as Hscale by lra.
  destruct (uniform_fill_spec low (high - low) size g Hscale) as [Hlen Hrange].
  destruct (uniform_fill low (high - low) size g) as [vs' g1].
  intros [= <- <-]. simpl in *. split_and!; [done | done |].
  eapply Forall_impl; [exact Hrange |]. simpl. intros v [? ?]. split; lra.
Qed.

(** C5.  Bootstrap strategy of the Column Sampler: whatever the input
    column, the requested sample count and the generator, every value of a
    returned column occurs in the input column, and the column has the
    requested length (the input's length when none is given); a non-empty
    input column always yields such a column. *)
Theorem bootstrap_sample_column_membership {A} (X : list A)
    (n_samples : option nat) (random_state : random_state_arg G) :
  (∀ col g', bootstrap_sample_column X n_samples random_state = (Ok col, g') →
     length col = default (length X) n_samples ∧ Forall (λ v, v ∈ X) col) ∧
  (X ≠ [] →
   ∃ col g', bootstrap_sample_column X n_samples random_state = (Ok col, g')).
Proof.
  unfold bootstrap_sample_column. split.
  - intros col g' H. apply choice_sound in H. by destruct n_samples.
  - intros HX.
    destruct (choice_returns X (match n_samples with
                                | Some n => n | None => length X end)
                (check_random_state random_state) HX) as (col & g' & E & _).
    by exists col, g'.
Qed.

Lemma column_range_finite_eq (X : list Q) min_X max_X :
  np_min X = Ok min_X → np_max X = Ok max_X →
  column_range_finite X = isfinite (max_X - min_X).
Proof. intros Hlo Hhi. unfold column_range_finite. by rewrite Hlo, Hhi. Qed.

Lemma uniform_sample_column_sound (X : list Q) n_samples random_state col g' :
  uniform_sample_column X n_samples random_state = (Ok col, g') →
  ∃ min_X max_X,
    np_min X = Ok min_X ∧ np_max X = Ok max_X ∧ min_X ∈ X ∧ max_X ∈ X ∧
    Forall (λ x, (min_X <= x)%Q ∧ (x <= max_X)%Q) X ∧
    column_range_finite X = true ∧
    length col = default (length X) n_samples ∧
    Forall (λ v, (min_X <= v)%Q ∧ (v <= max_X)%Q) col.
Proof.
  intros H. destruct X as [|x X'].
  { unfold uniform_sample_column in H. simpl in H. discriminate. }
  assert (x :: X' ≠ []) as HX by done.
  destruct (np_min_spec _ HX) as (lo & Hlo & Hlo_in & Hlo_le).
  destruct (np_max_spec _ HX) as (hi & Hhi & Hhi_in & Hhi_ge).
  assert (lo <= hi)%Q as Hle.
  { rewrite Forall_forall in Hlo_le. by apply Hlo_le. }
  exists lo, hi.
  unfold uniform_sample_column, bind, lift in H. rewrite Hlo, Hhi in H.
  apply (uniform_sound _ _ _ _ _ _ Hle) in H as (Hfin & Hlen & Hrange).
  assert (Forall (λ y, (lo <= y)%Q ∧ (y <= hi)%Q) (x :: X')) as HX'.
  { rewrite Forall_forall in Hlo_le, Hhi_ge |- *. intros y Hy.
    split; [by apply Hlo_le | by apply Hhi_ge]. }
  assert (column_range_finite (x :: X') = true) as Hfin'
    by (by rewrite (column_range_finite_eq _ _ _ Hlo Hhi)).
  assert (length col = default (length (x :: X')) n_samples) as Hlen'
    by (rewrite Hlen; by destruct n_samples).
  by split_and!.
Qed.

Lemma uniform_sample_column_returns (X : list Q) (n_samples : option nat)
    (random_state : random_state_arg G) :
  X ≠ [] → column_range_finite X = true →
  ∃ col g',
    uniform_sample_column X n_samples random_state = (Ok col, g') ∧
    length col = default (length X) n_samples.
Proof.
  intros HX Hfin.
  destruct (np_min_spec X HX) as (lo & Hlo & _ & _).
  destruct (np_max_spec X HX) as (hi & Hhi & _ & _).
  rewrite (column_range_finite_eq _ _ _ Hlo Hhi) in Hfin.
  destruct (uniform_returns lo hi
              (match n_samples with Some n => n | None => length X end)
              (check_random_state random_state) Hfin) as (col & g' & E).
  assert (uniform_sample_column X n_samples random_state = (Ok col, g'))
    as Hs.
  { unfold uniform_sample_column, bind, lift. by rewrite Hlo, Hhi. }
  exists col, g'. split; [done |].
  by destruct (uniform_sample_column_sound _ _ _ _ _ Hs)
    as (_ & _ & _ & _ & _ & _ & _ & _ & ? & _).
Qed.



End SamplingProperties.

(** ** Values of a dtype *)

Lemma astype_idem d v : astype d (astype d v) = astype d v.
Proof.
  destruct d; [done |]. unfold astype, Qtruncate, inject_Z. simpl.
  by rewrite Z.quot_1_r.
Qed.

Lemma astype_zero d : astype d 0%Q = 0%Q.
Proof. by destruct d. Qed.



(** ** Arrays *)

Lemma wf_empty_like X : wf (empty_like X).
Proof.
  split_and!; simpl.
  - apply length_replicate.
  - apply Forall_replicate, length_replicate.
  - apply Forall_replicate, Forall_replicate, astype_zero.
Qed.

Lemma get_column_returns X column :
  column < shape1 X →
  ∃ col, get_column X column = Ok col ∧ length col = length (rows X).
Proof.
  intros Hc. unfold get_column.
  destruct (Nat.ltb_spec column (shape1 X)) as [_|]; [| lia].
  eexists. split; [done |]. apply length_map.
Qed.

Lemma Forall_insert_cell (P : Q → Prop) (r : list Q) c v :
  Forall P r → P v → Forall P (<[c := v]> r).
Proof.
  intros Hr Hv. apply Forall_forall. intros x Hx.
  apply list_elem_of_lookup in Hx as [i Hi].
  destruct (decide (c = i)) as [-> |Hne].
  - destruct (decide (i < length r)) as [Hlt|Hge].
    + rewrite list_lookup_insert_eq in Hi by done. congruence.
    + rewrite list_insert_ge in Hi by lia.
      eapply Forall_lookup_1; [exact Hr | exact Hi].
  - rewrite list_lookup_insert_ne in Hi by done.
    eapply Forall_lookup_1; [exact Hr | exact Hi].
Qed.

Lemma set_column_shape S column values S' :
  set_column S column values = Ok S' →
  wf S → wf S' ∧ shape0 S' = shape0 S ∧ shape1 S' = shape1 S.
Proof.
  unfold set_column. intros H (Hn & Hf & Hd).
  destruct (column <? shape1 S); [| done].
  destruct (Nat.eqb_spec (length values) (shape0 S)) as [Hlen|_].
  - injection H as <-. split; [| done]. split_and!; simpl.
    + rewrite length_zip_with_l_eq; lia.
    + eapply Forall_zip_with_fst; [exact Hf |].
      apply Forall_true. intros v r Hr. by rewrite length_insert.
    + eapply Forall_zip_with_fst; [exact Hd |].
      apply Forall_true. intros v r Hr.
      apply Forall_insert_cell; [done | apply astype_idem].
  - destruct values as [|v [|]]; try done. injection H as <-.
    split; [| done]. split_and!; simpl.
    + by rewrite length_map.
    + apply Forall_fmap. eapply Forall_impl; [exact Hf |].
      intros r Hr. simpl. by rewrite length_insert.
    + apply Forall_fmap. eapply Forall_impl; [exact Hd |].
      intros r Hr. simpl.
      apply Forall_insert_cell; [done | apply astype_idem].
Qed.

Lemma set_column_dtype S column values S' :
  set_column S column values = Ok S' → dtype S' = dtype S.
Proof.
  unfold set_column. destruct (column <? shape1 S); [| done].
  destruct (length values =? shape0 S); [by intros [= <-] |].
  destruct values as [|v [|]]; try done. by intros [= <-].
Qed.

Lemma set_column_returns S column values :
  column < shape1 S → length values = shape0 S →
  ∃ S', set_column S column values = Ok S'.
Proof.
  intros Hc Hlen. unfold set_column.
  destruct (Nat.ltb_spec column (shape1 S)) as [_|]; [| lia].
  destruct (Nat.eqb_spec (length values) (shape0 S)) as [_|]; [| done].
  by eexists.
Qed.

Lemma result_type_diag d : result_type d d = d.
Proof. by destruct d. Qed.

Lemma vstack_inv A B S :
  vstack A B = Ok S →
  shape1 A = shape1 B ∧ shape0 S = shape0 A + shape0 B ∧
  shape1 S = shape1 A ∧ rows S = rows A ++ rows B.
Proof.
  unfold vstack. destruct (Nat.eqb_spec (shape1 A) (shape1 B)); [| done].
  by intros [= <-].
Qed.

Lemma vstack_dtype A B S :
  vstack A B = Ok S → dtype S = result_type (dtype A) (dtype B).
Proof.
  unfold vstack. destruct (shape1 A =? shape1 B); [| done].
  by intros [= <-].
Qed.

Lemma take_rows_inv S indices X_ :
  take_rows S indices = Ok X_ →
  shape0 X_ = length indices ∧ shape1 X_ = shape1 S ∧
  getitem (rows S) indices = Ok (rows X_).
Proof.
  unfold take_rows. destruct (getitem (rows S) indices); [| done].
  by intros [= <-].
Qed.

Lemma take_rows_dtype S indices X_ :
  take_rows S indices = Ok X_ → dtype X_ = dtype S.
Proof.
  unfold take_rows. destruct (getitem (rows S) indices); [| done].
  by intros [= <-].
Qed.

Section GeneratorProperties.
Context {G : Type} `{RS : RandomState G}.

Lemma bootstrap_column_length (X : list Q) g col g' :
  bootstrap_sample_column X None (Instance_ g) = (Ok col, g') →
  length col = length X.
Proof.
  unfold bootstrap_sample_column. by intros [? _]%choice_sound.
Qed.

(** Asked for as many samples as the column has values, the bootstrap
    sampler always returns, also on a column without values. *)
Lemma bootstrap_column_returns {A} (X : list A) g :
  ∃ col g', bootstrap_sample_column X None (Instance_ g) = (Ok col, g').
Proof.
  destruct X as [|x X'].
  - by exists [], g.
  - destruct (choice_returns (x :: X') (length (x :: X')) g)
      as (col & g' & E & _); [done |].
    by exists col, g'.
Qed.

Lemma uniform_column_length (X : list Q) g col g' :
  uniform_sample_column X None (Instance_ g) = (Ok col, g') →
  length col = length X.
Proof.
  intros H.
  by destruct (uniform_sample_column_sound _ _ _ _ _ H)
    as (_ & _ & _ & _ & _ & _ & _ & _ & ? & _).
Qed.

(** The loop only ever stores whole columns: the array it returns has the
    shape of the array it started from. *)
Lemma generate_synthetic_features_loop_shape X method columns :
  ∀ S g S' g',
    generate_synthetic_features_loop X method columns S g = (Ok S', g') →
    wf S → wf S' ∧ shape0 S' = shape0 S ∧ shape1 S' = shape1 S.
Proof.
  induction columns as [|column columns IH]; intros S g S' g' H HS.
  - simpl in H. injection H as <- <-. done.
  - simpl in H. unfold bind, lift in H.
    destruct (String.eqb method "bootstrap").
    + destruct (get_column X column) as [col|]; [| done].
      destruct (bootstrap_sample_column col None (Instance_ g))
        as [[sampled|] g1]; [| done].
      destruct (set_column S column sampled) as [S1|] eqn:Hset; [| done].
      destruct (set_column_shape _ _ _ _ Hset HS) as (HS1 & E0 & E1).
      destruct (IH _ _ _ _ H HS1) as (? & ? & ?).
      split; [done |]. split; congruence.
    + destruct (String.eqb method "uniform"); [| done].
      destruct (get_column X column) as [col|]; [| done].
      destruct (uniform_sample_column col None (Instance_ g))
        as [[sampled|] g1]; [| done].
      destruct (set_column S column sampled) as [S1|] eqn:Hset; [| done].
      destruct (set_column_shape _ _ _ _ Hset HS) as (HS1 & E0 & E1).
      destruct (IH _ _ _ _ H HS1) as (? & ? & ?).
      split; [done |]. split; congruence.
Qed.

(** ... and its dtype. *)
Lemma generate_synthetic_features_loop_dtype X method columns :
  ∀ S g S' g',
    generate_synthetic_features_loop X method columns S g = (Ok S', g') →
    dtype S' = dtype S.
Proof.
  induction columns as [|column columns IH]; intros S g S' g' H.
  - simpl in H. by injection H as <- <-.
  - simpl in H. unfold bind, lift in H.
    destruct (String.eqb method "bootstrap").
    + destruct (get_column X column) as [col|]; [| done].
      destruct (bootstrap_sample_column col None (Instance_ g))
        as [[sampled|] g1]; [| done].
      destruct (set_column S column sampled) as [S1|] eqn:Hset; [| done].
      rewrite (IH _ _ _ _ H). by eapply set_column_dtype.
    + destruct (String.eqb method "uniform"); [| done].
      destruct (get_column X column) as [col|]; [| done].
      destruct (uniform_sample_column col None (Instance_ g))
        as [[sampled|] g1]; [| done].
      destruct (set_column S column sampled) as [S1|] eqn:Hset; [| done].
      rewrite (IH _ _ _ _ H). by eapply set_column_dtype.
Qed.

(** Under the bootstrap strategy every iteration succeeds. *)
Lemma generate_synthetic_features_loop_returns_bootstrap X columns :
  wf X → Forall (λ c, c < shape1 X) columns →
  ∀ S g, wf S → shape0 S = shape0 X → shape1 S = shape1 X →
    ∃ S' g', generate_synthetic_features_loop X "bootstrap" columns S g
             = (Ok S', g').
Proof.
  intros (HXn & HXf & _) Hcols.
  induction Hcols as [|column columns Hc _ IH]; intros S g HS E0 E1.
  - by exists S, g.
  - simpl. unfold bind, lift.
    destruct (get_column_returns X column Hc) as (col & -> & Hlen).
    destruct (bootstrap_column_returns col g) as (sampled & g1 & Hs).
    rewrite Hs. pose proof (bootstrap_column_length _ _ _ _ Hs) as Hl.
    destruct (set_column_returns S column sampled) as [S1 Hset];
      [lia | lia |].
    rewrite Hset.
    destruct (set_column_shape _ _ _ _ Hset HS) as (HS1 & F0 & F1).
    apply IH; [done | lia | lia].
Qed.

(** Under the uniform strategy every iteration succeeds when the matrix has
    a row and the range of each column is a finite double. *)
Lemma generate_synthetic_features_loop_returns_uniform X columns :
  wf X → 1 ≤ shape0 X →
  Forall (λ c, c < shape1 X ∧
               ∀ col, get_column X c = Ok col → column_range_finite col = true)
    columns →
  ∀ S g, wf S → shape0 S = shape0 X → shape1 S = shape1 X →
    ∃ S' g', generate_synthetic_features_loop X "uniform" columns S g
             = (Ok S', g').
Proof.
  intros (HXn & HXf & _) Hn Hcols.
  induction Hcols as [|column columns [Hc Hfin] _ IH]; intros S g HS E0 E1.
  - by exists S, g.
  - simpl. unfold bind, lift.
    destruct (get_column_returns X column Hc) as (col & Hcol & Hlen).
    rewrite Hcol.
    assert (col ≠ []) as Hne by (destruct col; [simpl in *; lia | done]).
    destruct (uniform_sample_column_returns col None (Instance_ g) Hne
                (Hfin col Hcol)) as (sampled & g1 & Hs & _).
    rewrite Hs. pose proof (uniform_column_length _ _ _ _ Hs) as Hl.
    destruct (set_column_returns S column sampled) as [S1 Hset];
      [lia | lia |].
    rewrite Hset.
    destruct (set_column_shape _ _ _ _ Hset HS) as (HS1 & F0 & F1).
    apply IH; [done | lia | lia].
Qed.

Lemma ranges_finite_column X c col :
  ranges_finite X = true → c < shape1 X → get_column X c = Ok col →
  column_range_finite col = true.
Proof.
  unfold ranges_finite. rewrite forallb_forall. intros H Hc Hcol.
  specialize (H c). rewrite Hcol in H. apply H.
  apply in_seq. lia.
Qed.

(** An unknown method is refused in the first iteration, before the
    generator is touched. *)
Lemma generate_synthetic_features_loop_unknown X method column columns S g :
  method ≠ "bootstrap" → method ≠ "uniform" →
  generate_synthetic_features_loop X method (column :: columns) S g
  = (Raise (ValueError "method must be either `bootstrap` or `uniform`."), g).
Proof.
  intros Hb Hu. simpl.
  apply String.eqb_neq in Hb as ->. apply String.eqb_neq in Hu as ->. done.
Qed.

(** X6.  On a matrix with at least one column, a method name other than
    "bootstrap" and "uniform" makes the Synthetic Feature Generator raise
    [ValueError] in the first iteration; the generator is in the state the
    call started with, so nothing was drawn. *)
Lemma generate_synthetic_features_unknown_method X method random_state :
  1 ≤ shape1 X → method ≠ "bootstrap" → method ≠ "uniform" →
  generate_synthetic_features X method random_state
  = (Raise (ValueError "method must be either `bootstrap` or `uniform`."),
     check_random_state random_state).
Proof.
  intros Hf Hb Hu. unfold generate_synthetic_features.
  destruct (shape1 X) as [|f]; [lia |]. rewrite <- cons_seq.
  by apply generate_synthetic_features_loop_unknown.
Qed.

(** C2.  On a matrix without columns the loop body, which holds the only
    check of the method name, never runs: the Synthetic Feature Generator
    returns the (empty) matrix for every method name, the unsupported ones
    included, and raises nothing. *)
Theorem generate_synthetic_features_no_columns (d : np_dtype) (n : nat)
    (method : string) (random_state : random_state_arg G) :
  generate_synthetic_features (mk_ndarray d n 0 (replicate n [])) method
    random_state
  = (Ok (mk_ndarray d n 0 (replicate n [])), check_random_state random_state).
Proof. reflexivity. Qed.

(** Without rows the uniform strategy fails at the first column. *)
Lemma generate_synthetic_features_no_rows_raises d f random_state :
  generate_synthetic_features (mk_ndarray d 0 (S f) []) "uniform" random_state
  = (Raise (ValueError "zero-size array to reduction operation minimum which has no identity"),
     check_random_state random_state).
Proof. reflexivity. Qed.

Lemma generate_synthetic_features_returns (X : ndarray) (method : string)
    (random_state : random_state_arg G) :
  wf X →
  method = "bootstrap" ∨
  (method = "uniform" ∧ (1 ≤ shape0 X ∨ shape1 X = 0) ∧
   ranges_finite X = true) →
  ∃ synth_X g',
    generate_synthetic_features X method random_state = (Ok synth_X, g') ∧
    wf synth_X ∧ shape0 synth_X = shape0 X ∧ shape1 synth_X = shape1 X ∧
    dtype synth_X = dtype X.
Proof.
  intros HX Hm. unfold generate_synthetic_features.
  assert (∃ S' g', generate_synthetic_features_loop X method
                     (seq 0 (shape1 X)) (empty_like X)
                     (check_random_state random_state) = (Ok S', g'))
    as (S' & g' & E).
  { destruct Hm as [-> | (-> & [Hn | Hf] & Hfin)].
    - apply generate_synthetic_features_loop_returns_bootstrap; try done.
      + apply Forall_forall. intros c Hc%elem_of_seq. lia.
      + apply wf_empty_like.
    - apply generate_synthetic_features_loop_returns_uniform; try done.
      + apply Forall_forall. intros c Hc%elem_of_seq.
        split; [lia |]. intros col Hcol.
        apply (ranges_finite_column X c col Hfin); [lia | exact Hcol].
      + apply wf_empty_like.
    - rewrite Hf. by eexists _, _. }
  exists S', g'. split; [done |].
  destruct (generate_synthetic_features_loop_shape _ _ _ _ _ _ _ E
              (wf_empty_like X)) as (? & ? & ?).
  split_and!; try done.
  by rewrite (generate_synthetic_features_loop_dtype _ _ _ _ _ _ _ E).
Qed.

(** Whenever the generator returns, the result has the shape of [X]. *)
Lemma generate_synthetic_features_inv X method random_state synth_X g' :
  generate_synthetic_features X method random_state = (Ok synth_X, g') →
  wf synth_X ∧ shape0 synth_X = shape0 X ∧ shape1 synth_X = shape1 X.
Proof.
  intros E.
  by destruct (generate_synthetic_features_loop_shape _ _ _ _ _ _ _ E
                 (wf_empty_like X)) as (? & ? & ?).
Qed.

Lemma generate_synthetic_features_dtype X method random_state synth_X g' :
  generate_synthetic_features X method random_state = (Ok synth_X, g') →
  dtype synth_X = dtype X.
Proof.
  intros E.
  by rewrite (generate_synthetic_features_loop_dtype _ _ _ _ _ _ _ E).
Qed.

(** C7 (amended).  For a matrix [X] of [n] rows and [f] columns, the
    Synthetic Feature Generator returns a matrix of shape [(n, f)] and of
    the dtype of [X]: always under the bootstrap strategy; under the uniform
    strategy when [X] has a row (or no column) and the range [max - min] of
    each of its columns is a finite double. *)
Theorem generate_synthetic_features_shape (X : ndarray) (method : string)
    (random_state : random_state_arg G) :
  wf X →
  method = "bootstrap" ∨
  (method = "uniform" ∧ (1 ≤ shape0 X ∨ shape1 X = 0) ∧
   ranges_finite X = true) →
  ∃ synth_X g',
    generate_synthetic_features X method random_state = (Ok synth_X, g') ∧
    wf synth_X ∧ shape0 synth_X = shape0 X ∧ shape1 synth_X = shape1 X ∧
    dtype synth_X = dtype X.
Proof.
  intros HX Hm. unfold generate_synthetic_features.
  assert (∃ S' g', generate_synthetic_features_loop X method
                     (seq 0 (shape1 X)) (empty_like X)
                     (check_random_state random_state) = (Ok S', g'))
    as (S' & g' & E).
  { destruct Hm as [-> | (-> & [Hn | Hf] & Hfin)].
    - apply generate_synthetic_features_loop_returns_bootstrap; try done.
      + apply Forall_forall. intros c Hc%elem_of_seq. lia.
      + apply wf_empty_like.
    - apply generate_synthetic_features_loop_returns_uniform; try done.
      + apply Forall_forall. intros c Hc%elem_of_seq.
        split; [lia |]. intros col Hcol.
        apply (ranges_finite_column X c col Hfin); [lia | exact Hcol].
      + apply wf_empty_like.
    - rewrite Hf. by eexists _, _. }
  exists S', g'. split; [done |].
  destruct (generate_synthetic_features_loop_shape _ _ _ _ _ _ _ E
              (wf_empty_like X)) as (? & ? & ?).
  split_and!; try done.
  by rewrite (generate_synthetic_features_loop_dtype _ _ _ _ _ _ _ E).
Qed.

End GeneratorProperties.

(** ** Shuffling *)

Lemma swap_Permutation {A} (x : list A) i j : swap x i j ≡ₚ x.
Proof.
  unfold swap. destruct (x !! i) as [xi|] eqn:Hi; [| done].
  destruct (x !! j) as [xj|] eqn:Hj; [| done].
  by apply Permutation_insert_swap.
Qed.

Lemma count_label_app b y1 y2 :
  count_label b (y1 ++ y2) = count_label b y1 + count_label b y2.
Proof. induction y1 as [|v y1 IH]; simpl; [done |]. rewrite IH. lia. Qed.

Lemma count_label_replicate b n v :
  count_label b (replicate n v) = if Qeq_bool v b then n else 0.
Proof.
  induction n as [|n IH]; simpl; [by destruct (Qeq_bool v b) |].
  rewrite IH. by destruct (Qeq_bool v b).
Qed.

Lemma count_label_Permutation b y1 y2 :
  y1 ≡ₚ y2 → count_label b y1 = count_label b y2.
Proof. induction 1; simpl; lia. Qed.

Lemma labels_lookup n i :
  i < n →
  (ones n ++ zeros n) !! i = Some 1%Q ∧
  (ones n ++ zeros n) !! (n + i) = Some 0%Q.
Proof.
  intros Hi. unfold ones, zeros. split.
  - rewrite lookup_app_l by (rewrite length_replicate; lia).
    by apply lookup_replicate_2.
  - rewrite lookup_app_r by (rewrite length_replicate; lia).
    rewrite length_replicate. apply lookup_replicate_2. lia.
Qed.

(** The labels keep their balance under every rearrangement of the rows. *)
Lemma label_balance_any_permutation n p y_ :
  p ≡ₚ seq 0 (2 * n) → getitem (ones n ++ zeros n) p = Ok y_ →
  count_label 1 y_ = n ∧ count_label 0 y_ = n.
Proof.
  intros Hp Hy_.
  assert (y_ ≡ₚ ones n ++ zeros n) as Hy.
  { eapply getitem_Permutation; [| exact Hy_].
    unfold ones, zeros. rewrite length_app, !length_replicate.
    by replace (n + n) with (2 * n) by lia. }
  rewrite !(count_label_Permutation _ _ _ Hy), !count_label_app.
  unfold ones, zeros. rewrite !count_label_replicate. simpl. lia.
Qed.

Section BuilderProperties.
Context {G : Type} `{RS : RandomState G}.

Lemma shuffle_from_Permutation {A} i (x : list A) g :
  (shuffle_from i x g).1 ≡ₚ x.
Proof.
  revert x g. induction i as [|i IH]; intros x g; simpl; [done |].
  destruct (rk_interval (S i) g) as [j g1].
  rewrite IH. apply swap_Permutation.
Qed.

Lemma shuffle_Permutation {A} (x : list A) g : (shuffle x g).1 ≡ₚ x.
Proof. apply shuffle_from_Permutation. Qed.

(** The steps of a call of the builder that returns. *)
Lemma generate_discriminative_dataset_inv X method random_state X_ y_ g' :
  generate_discriminative_dataset X method random_state = (Ok (X_, y_), g') →
  ∃ synth_X g1 S p,
    generate_synthetic_features X method
      (Instance_ (check_random_state random_state)) = (Ok synth_X, g1) ∧
    vstack X synth_X = Ok S ∧
    shuffle (arange (shape0 S)) g1 = (p, g') ∧
    take_rows S p = Ok X_ ∧
    getitem (ones (shape0 X) ++ zeros (shape0 X)) p = Ok y_.
Proof.
  unfold generate_discriminative_dataset, bind, lift, ret, permutation.
  intros H.
  destruct (generate_synthetic_features X method
              (Instance_ (check_random_state random_state)))
    as [[synth_X|] g1] eqn:E1; [| done].
  destruct (vstack X synth_X) as [S|] eqn:E2; [| done].
  destruct (shuffle (arange (shape0 S)) g1) as [p g2] eqn:E3.
  destruct (take_rows S p) as [X1|] eqn:E4; [| done].
  destruct (getitem (ones (shape0 X) ++ zeros (shape0 X)) p) as [y1|] eqn:E5;
    [| done].
  simplify_eq. by exists synth_X, g1, S, p.
Qed.

Lemma generate_discriminative_dataset_returns X method random_state :
  wf X →
  method = "bootstrap" ∨
  (method = "uniform" ∧ (1 ≤ shape0 X ∨ shape1 X = 0) ∧
   ranges_finite X = true) →
  ∃ X_ y_ g',
    generate_discriminative_dataset X method random_state
    = (Ok (X_, y_), g').
Proof.
  intros HX Hm.
  destruct (generate_synthetic_features_returns X method
              (Instance_ (check_random_state random_state)) HX Hm)
    as (synth_X & g1 & Hsynth & (Hsn & Hsf & _) & E0 & E1 & _).
  unfold generate_discriminative_dataset, bind, lift, ret, permutation.
  rewrite Hsynth. unfold vstack.
  destruct (Nat.eqb_spec (shape1 X) (shape1 synth_X)) as [_|]; [| lia].
  cbn [shape0 shape1 rows].
  pose proof (shuffle_Permutation (arange (shape0 X + shape0 synth_X)) g1)
    as Hp.
  destruct (shuffle (arange (shape0 X + shape0 synth_X)) g1) as [p g2].
  cbn [fst] in Hp. unfold take_rows. cbn [shape0 shape1 rows].
  assert (Forall (λ i, i < shape0 X + shape0 synth_X) p) as Hrange.
  { apply Forall_forall. intros i Hi. rewrite Hp in Hi.
    apply elem_of_seq in Hi. lia. }
  destruct HX as (HXn & HXf & _).
  destruct (getitem_in_range (rows X ++ rows synth_X) p) as [rs ->].
  { by rewrite length_app, HXn, Hsn. }
  destruct (getitem_in_range (ones (shape0 X) ++ zeros (shape0 X)) p)
    as [ys ->].
  { unfold ones, zeros. rewrite length_app, !length_replicate.
    eapply Forall_impl; [exact Hrange |]. simpl. intros i Hi. lia. }
  by eexists _, _, _.
Qed.

Lemma generate_discriminative_dataset_shape X method random_state X_ y_ g' :
  wf X →
  generate_discriminative_dataset X method random_state = (Ok (X_, y_), g') →
  shape0 X_ = 2 * shape0 X ∧ shape1 X_ = shape1 X ∧ wf X_ ∧
  length y_ = 2 * shape0 X ∧
  count_label 1 y_ = shape0 X ∧ count_label 0 y_ = shape0 X.
Proof.
  intros (HXn & HXf & HXd) H.
  apply generate_discriminative_dataset_inv in H
    as (synth_X & g1 & S & p & Hsynth & HS & Hp & HX_ & Hy_).
  pose proof (generate_synthetic_features_dtype _ _ _ _ _ Hsynth) as Ed.
  apply generate_synthetic_features_inv in Hsynth
    as ((Hsn & Hsf & Hsd) & E0 & E1).
  pose proof (vstack_dtype _ _ _ HS) as HSd.
  rewrite Ed, result_type_diag in HSd.
  apply vstack_inv in HS as (_ & HS0 & HS1 & HSr).
  pose proof (take_rows_dtype _ _ _ HX_) as HX_d.
  apply take_rows_inv in HX_ as (HX0 & HX1 & Hrows).
  pose proof (shuffle_Permutation (arange (shape0 S)) g1) as Hperm.
  rewrite Hp in Hperm. cbn [fst] in Hperm. unfold arange in Hperm.
  assert (length p = 2 * shape0 X) as Hlen.
  { rewrite Hperm, length_seq. lia. }
  assert (p ≡ₚ seq 0 (2 * shape0 X)) as Hperm'
    by (by replace (2 * shape0 X) with (shape0 S) by lia).
  destruct (label_balance_any_permutation _ _ _ Hperm' Hy_) as [Hones Hzeros].
  pose proof (getitem_elem_of _ _ _ Hrows) as Hin. rewrite HSr in Hin.
  split_and!.
  - lia.
  - congruence.
  - split_and!.
    + apply getitem_length in Hrows. lia.
    + eapply Forall_impl; [exact Hin |].
      intros r Hr. simpl in Hr.
      rewrite HX1, HS1. apply elem_of_app in Hr as [Hr|Hr].
      * rewrite Forall_forall in HXf. by apply HXf.
      * rewrite Forall_forall in Hsf. rewrite <- E1. by apply Hsf.
    + rewrite HX_d, HSd. eapply Forall_impl; [exact Hin |].
      intros r Hr. simpl in Hr. apply elem_of_app in Hr as [Hr|Hr].
      * rewrite Forall_forall in HXd. by apply HXd.
      * rewrite Forall_forall in Hsd. rewrite <- Ed. by apply Hsd.
  - apply getitem_length in Hy_. lia.
  - done.
  - done.
Qed.

(** The returned (row, label) pairs, as a collection. *)
Lemma generate_discriminative_dataset_zip X synth_X A p X_ y_ :
  wf X → wf synth_X → shape0 synth_X = shape0 X →
  vstack X synth_X = Ok A → p ≡ₚ seq 0 (shape0 A) →
  take_rows A p = Ok X_ →
  getitem (ones (shape0 X) ++ zeros (shape0 X)) p = Ok y_ →
  zip (rows X_) y_
  ≡ₚ zip (rows X) (ones (shape0 X)) ++ zip (rows synth_X) (zeros (shape0 X)).
Proof.
  intros (HXn & _) (Hsn & _) E0 HA Hperm HX_ Hy_.
  destruct (vstack_inv _ _ _ HA) as (_ & HA0 & _ & HAr).
  destruct (take_rows_inv _ _ _ HX_) as (_ & _ & Hrows).
  pose proof (getitem_zip _ _ _ _ _ Hrows Hy_) as Hzip.
  assert (zip (rows A) (ones (shape0 X) ++ zeros (shape0 X))
          = zip (rows X) (ones (shape0 X))
            ++ zip (rows synth_X) (zeros (shape0 X))) as Hsplit.
  { rewrite HAr. unfold zip. apply zip_with_app.
    unfold ones. by rewrite length_replicate. }
  rewrite <- Hsplit. eapply getitem_Permutation; [| exact Hzip].
  assert (length (zip (rows A) (ones (shape0 X) ++ zeros (shape0 X)))
          = shape0 A) as ->; [| done].
  rewrite length_zip_with, HAr, !length_app. unfold ones, zeros.
  rewrite !length_replicate. lia.
Qed.

End BuilderProperties.

Section BuilderClaims.
Context {G : Type} `{RS : RandomState G}.

(** C1.  A call of the Discriminative Dataset Builder that returns went
    through these steps.  The matrix [S] that is shuffled is [X] stacked on
    the synthetic matrix, [2n] rows: its row [i] is row [i] of [X] and its
    row [n + i] is row [i] of the synthetic matrix, for every [i < n].  The
    label vector that is shuffled has length [2n] and holds [1] at every
    position [i < n] (a real row) and [0] at every position [n + i] (a
    synthetic row).  The output is this pair indexed by the shuffle [p] of
    [0 .. 2n-1]: it has [2n] rows and [2n] labels, and its (row, label)
    pairs are the rows of [X] with label 1 and the synthetic rows with
    label 0, rearranged. *)
Theorem generate_discriminative_dataset_stacking (X : ndarray)
    (method : string) (random_state : random_state_arg G)
    (X_ : ndarray) (y_ : list Q) (g' : G) :
  wf X →
  generate_discriminative_dataset X method random_state = (Ok (X_, y_), g') →
  ∃ synth_X g1 S p,
    generate_synthetic_features X method
      (Instance_ (check_random_state random_state)) = (Ok synth_X, g1) ∧
    vstack X synth_X = Ok S ∧
    shape0 S = 2 * shape0 X ∧ shape1 S = shape1 X ∧
    rows S = rows X ++ rows synth_X ∧
    length (rows X) = shape0 X ∧ length (rows synth_X) = shape0 X ∧
    length (ones (shape0 X) ++ zeros (shape0 X)) = 2 * shape0 X ∧
    (∀ i, i < shape0 X →
       rows S !! i = rows X !! i ∧
       rows S !! (shape0 X + i) = rows synth_X !! i ∧
       (ones (shape0 X) ++ zeros (shape0 X)) !! i = Some 1%Q ∧
       (ones (shape0 X) ++ zeros (shape0 X)) !! (shape0 X + i) = Some 0%Q) ∧
    shuffle (arange (shape0 S)) g1 = (p, g') ∧
    p ≡ₚ seq 0 (2 * shape0 X) ∧
    take_rows S p = Ok X_ ∧
    getitem (ones (shape0 X) ++ zeros (shape0 X)) p = Ok y_ ∧
    length (rows X_) = 2 * shape0 X ∧ length y_ = 2 * shape0 X ∧
    zip (rows X_) y_
    ≡ₚ zip (rows X) (ones (shape0 X)) ++ zip (rows synth_X) (zeros (shape0 X)).
Proof.
  intros HX H.
  destruct (generate_discriminative_dataset_shape _ _ _ _ _ _ HX H)
    as (_ & _ & (HX_n & _) & Hy_len & _).
  apply generate_discriminative_dataset_inv in H
    as (synth_X & g1 & S & p & Hsynth & HS & Hp & HX_ & Hy_).
  exists synth_X, g1, S, p.
  destruct (generate_synthetic_features_inv _ _ _ _ _ Hsynth)
    as (Hs & E0 & E1).
  destruct (vstack_inv _ _ _ HS) as (_ & HS0 & HS1 & HSr).
  destruct (take_rows_inv _ _ _ HX_) as (HX0 & _ & _).
  pose proof (shuffle_Permutation (arange (shape0 S)) g1) as Hperm.
  rewrite Hp in Hperm. cbn [fst] in Hperm. unfold arange in Hperm.
  assert (length (rows X) = shape0 X) as HXn by (by destruct HX).
  assert (length (rows synth_X) = shape0 X) as Hsn
    by (destruct Hs as [? _]; lia).
  assert (p ≡ₚ seq 0 (2 * shape0 X)) as Hperm'
    by (by replace (2 * shape0 X) with (shape0 S) by lia).
  assert (length (rows X_) = 2 * shape0 X) as HX_len.
  { rewrite HX_n, HX0, Hperm', length_seq. done. }
  split_and!; try done.
  - lia.
  - unfold ones, zeros. rewrite length_app, !length_replicate. lia.
  - intros i Hi. rewrite HSr. split_and!.
    + apply lookup_app_l. lia.
    + rewrite lookup_app_r by lia. f_equal. lia.
    + by apply labels_lookup.
    + by apply labels_lookup.
  - by eapply generate_discriminative_dataset_zip.
Qed.

(** C3.  Whatever the generator draws, a pair returned by the
    Discriminative Dataset Builder for a matrix of [n] rows and [f] columns
    is a matrix of shape [(2n, f)] and a label vector of length [2n] that
    holds exactly [n] ones and [n] zeros; the builder does return a pair
    under the bootstrap strategy, and under the uniform strategy when [X]
    has a row (or no column) and the range of each column is a finite
    double; and the balance of the labels is the same under every
    rearrangement of [0 .. 2n-1] that could be drawn. *)
Theorem generate_discriminative_dataset_balanced (X : ndarray)
    (method : string) (random_state : random_state_arg G) :
  wf X →
  (∀ X_ y_ g',
     generate_discriminative_dataset X method random_state
     = (Ok (X_, y_), g') →
     shape0 X_ = 2 * shape0 X ∧ shape1 X_ = shape1 X ∧ wf X_ ∧
     length y_ = 2 * shape0 X ∧
     count_label 1 y_ = shape0 X ∧ count_label 0 y_ = shape0 X) ∧
  (method = "bootstrap" ∨
   (method = "uniform" ∧ (1 ≤ shape0 X ∨ shape1 X = 0) ∧
    ranges_finite X = true) →
   ∃ X_ y_ g',
     generate_discriminative_dataset X method random_state
     = (Ok (X_, y_), g')) ∧
  (∀ p y_,
     p ≡ₚ seq 0 (2 * shape0 X) →
     getitem (ones (shape0 X) ++ zeros (shape0 X)) p = Ok y_ →
     count_label 1 y_ = shape0 X ∧ count_label 0 y_ = shape0 X).
Proof.
  intros HX. split_and!.
  - intros X_ y_ g' H.
    by eapply generate_discriminative_dataset_shape.
  - intros Hm. by apply generate_discriminative_dataset_returns.
  - intros p y_. apply label_balance_any_permutation.
Qed.

(** C4.  A call of the builder that returns drew one index array [p], a
    rearrangement of [0 .. 2n-1] (every index once), and indexed both the
    stacked matrix and the label vector by it: at every output position
    [k] the output row is the stacked row at [p(k)] and the output label is
    the label at [p(k)] before the shuffle. *)
Theorem generate_discriminative_dataset_shared_permutation (X : ndarray)
    (method : string) (random_state : random_state_arg G)
    (X_ : ndarray) (y_ : list Q) (g' : G) :
  generate_discriminative_dataset X method random_state = (Ok (X_, y_), g') →
  ∃ synth_X g1 S p,
    generate_synthetic_features X method
      (Instance_ (check_random_state random_state)) = (Ok synth_X, g1) ∧
    vstack X synth_X = Ok S ∧
    shuffle (arange (shape0 S)) g1 = (p, g') ∧
    take_rows S p = Ok X_ ∧
    getitem (ones (shape0 X) ++ zeros (shape0 X)) p = Ok y_ ∧
    p ≡ₚ seq 0 (2 * shape0 X) ∧
    NoDup p ∧ length p = 2 * shape0 X ∧ (∀ i, i ∈ p ↔ i < 2 * shape0 X) ∧
    ∀ k, k < 2 * shape0 X →
      ∃ i row label,
        p !! k = Some i ∧ i < 2 * shape0 X ∧
        rows S !! i = Some row ∧ rows X_ !! k = Some row ∧
        (ones (shape0 X) ++ zeros (shape0 X)) !! i = Some label ∧
        y_ !! k = Some label.
Proof.
  intros H.
  apply generate_discriminative_dataset_inv in H
    as (synth_X & g1 & S & p & Hsynth & HS & Hp & HX_ & Hy_).
  exists synth_X, g1, S, p.
  destruct (generate_synthetic_features_inv _ _ _ _ _ Hsynth)
    as (_ & E0 & _).
  destruct (vstack_inv _ _ _ HS) as (_ & HS0 & _ & _).
  destruct (take_rows_inv _ _ _ HX_) as (_ & _ & Hrows).
  pose proof (shuffle_Permutation (arange (shape0 S)) g1) as Hperm.
  rewrite Hp in Hperm. cbn [fst] in Hperm. unfold arange in Hperm.
  replace (shape0 S) with (2 * shape0 X) in Hperm by lia.
  assert (length p = 2 * shape0 X) as Hlen
    by (by rewrite Hperm, length_seq).
  assert (∀ i, i ∈ p ↔ i < 2 * shape0 X) as Hmem.
  { intros i. rewrite Hperm, elem_of_seq. lia. }
  split_and!; try done.
  - rewrite Hperm. apply NoDup_seq.
  - intros k Hk.
    destruct (lookup_lt_is_Some_2 p k) as [i Hi]; [lia |].
    destruct (getitem_lookup_Some _ _ _ _ _ Hrows Hi) as (row & ? & ?).
    destruct (getitem_lookup_Some _ _ _ _ _ Hy_ Hi) as (label & ? & ?).
    exists i, row, label. split_and!; try done.
    apply Hmem. by eapply list_elem_of_lookup_2.
Qed.

(** C8.  Two calls of the builder with the same matrix, the same method
    and the same integer seed end the same way, and where the builder can
    return they both return one and the same pair: the pair built from a
    generator freshly made from the seed, a matrix of [2n] rows with [2n]
    labels.  Each call builds its own generator from the seed, so the state
    the first call leaves behind does not reach the second. *)
Theorem generate_discriminative_dataset_deterministic (X : ndarray)
    (method : string) (s : Z) :
  (two_calls X method (Seed s)).1 = (two_calls X method (Seed s)).2 ∧
  (wf X →
   method = "bootstrap" ∨
   (method = "uniform" ∧ (1 ≤ shape0 X ∨ shape1 X = 0) ∧
    ranges_finite X = true) →
   ∃ X_ y_ g',
     generate_discriminative_dataset X method
       (Instance_ (RandomState_seed s)) = (Ok (X_, y_), g') ∧
     two_calls X method (Seed s) = (Ok (X_, y_), Ok (X_, y_)) ∧
     shape0 X_ = 2 * shape0 X ∧ shape1 X_ = shape1 X ∧
     length (rows X_) = 2 * shape0 X ∧ length y_ = 2 * shape0 X).
Proof.
  split.
  - unfold two_calls.
    by destruct (generate_discriminative_dataset X method (Seed s))
      as [first g1].
  - intros HX Hm.
    destruct (generate_discriminative_dataset_returns X method
                (Instance_ (RandomState_seed s)) HX Hm)
      as (X_ & y_ & g' & E).
    destruct (generate_discriminative_dataset_shape _ _ _ _ _ _ HX E)
      as (E0 & E1 & (HX_n & _) & Hy_len & _).
    exists X_, y_, g'. split_and!; try done; [| lia].
    unfold two_calls.
    change (generate_discriminative_dataset X method (Seed s))
      with (generate_discriminative_dataset X method
              (Instance_ (RandomState_seed s))).
    by rewrite E.
Qed.

End BuilderClaims.

Section EmbedderClaims.
Context {G : Type} `{RS : RandomState G}.

(** C9.  On an embedder that was just constructed, [transform] raises
    [UndefinedState] for every input and every component count: it asks the
    ensemble for decision paths first, and there is no trained ensemble. *)
Theorem transform_before_fit {Trees : Type} `{SK : Sklearn Trees}
    (c : config) (X : ndarray) (n_components : nat) :
  transform (__init__ c) X n_components = Raise UndefinedState.
Proof. reflexivity. Qed.

(** C10.  The training set that [fit_transform] builds does not depend on
    the [random_state] the embedder was configured with: two embedders
    that differ in nothing else train on the same pair, the one the builder
    returns for the seed 1234 and the embedder's method. *)
Theorem fit_transform_ignores_random_state (c : config)
    (rs1 rs2 : option Z) (X : ndarray) :
  training_set (__init__ (with_random_state c rs1)) X
  = training_set (__init__ (with_random_state c rs2)) X ∧
  training_set (__init__ (with_random_state c rs1)) X
  = match (generate_discriminative_dataset X (method c) (Seed 1234%Z)).1 with
    | Ok dataset => Some dataset
    | Raise _ => None
    end.
Proof.
  unfold training_set, fit_transform. simpl.
  by destruct (generate_discriminative_dataset X (method c) (Seed 1234%Z))
    as [[[X_ y_]|e] g'].
Qed.

End EmbedderClaims.

(** ** The model run on examples (generator [lcg]) *)

Lemma wf_X32 : wf X32.
Proof. split_and!; [reflexivity | repeat constructor | repeat constructor]. Qed.

Lemma wf_X32i : wf X32i.
Proof. split_and!; [reflexivity | repeat constructor | repeat constructor]. Qed.

Lemma wf_X21wide : wf X21wide.
Proof. split_and!; [reflexivity | repeat constructor | repeat constructor]. Qed.

(** Two well-formed matrices for which the uniform strategy, a known method,
    returns no matrix.  On a matrix of shape (0, 1) [np.min] has nothing to
    reduce in the only column.  On a matrix of shape (2, 1) whose column
    spans more than the float64 range, [RandomState.uniform] refuses the
    range. *)
Lemma generate_synthetic_features_uniform_raises :
  (wf (mk_ndarray float64 0 1 []) ∧
   generate_synthetic_features (mk_ndarray float64 0 1 []) "uniform"
     (Seed 12345%Z)
   = (Raise (ValueError "zero-size array to reduction operation minimum which has no identity"),
      12345%Z) ∧
   ¬ ∃ synth_X g',
       generate_synthetic_features (mk_ndarray float64 0 1 []) "uniform"
         (Seed 12345%Z)
       = (Ok synth_X, g') ∧
       shape0 synth_X = 0 ∧ shape1 synth_X = 1) ∧
  (wf X21wide ∧ 1 ≤ shape0 X21wide ∧
   generate_synthetic_features X21wide "uniform" (Seed 12345%Z)
   = (Raise (OverflowError "Range exceeds valid bounds"), 12345%Z) ∧
   ¬ ∃ synth_X g',
       generate_synthetic_features X21wide "uniform" (Seed 12345%Z)
       = (Ok synth_X, g') ∧
       shape0 synth_X = 2 ∧ shape1 synth_X = 1).
Proof.
  split; split_and!.
  - split_and!; [reflexivity | constructor | constructor].
  - reflexivity.
  - intros (synth_X & g' & E & _). vm_compute in E. discriminate.
  - exact wf_X21wide.
  - simpl. lia.
  - vm_compute. reflexivity.
  - intros (synth_X & g' & E & _). vm_compute in E. discriminate.
Qed.

(** The unsupported method "gaussian" on a 3 x 0 matrix: no error. *)
Example generate_synthetic_features_gaussian_no_columns :
  generate_synthetic_features (mk_ndarray float64 3 0 [[]; []; []])
    "gaussian" (Seed 12345%Z)
  = (Ok (mk_ndarray float64 3 0 [[]; []; []]), 12345%Z).
Proof. reflexivity. Qed.

(** The same method on a matrix with columns: refused, generator untouched. *)
Example generate_synthetic_features_gaussian_X32 :
  generate_synthetic_features X32 "gaussian" (Seed 12345%Z)
  = (Raise (ValueError "method must be either `bootstrap` or `uniform`."),
     12345%Z).
Proof. reflexivity. Qed.

(** The uniform strategy on an int64 matrix: the samples lose their
    fraction as they are stored, where a float64 matrix keeps it. *)
Example generate_synthetic_features_uniform_int64 :
  (generate_synthetic_features X32i "uniform" (Seed 12345%Z)).1
  = Ok (mk_ndarray int64 3 2 [[2#1; 12#1]; [1#1; 20#1]; [2#1; 19#1]]%Q) ∧
  (generate_synthetic_features X32 "uniform" (Seed 12345%Z)).1
  ≠ Ok (mk_ndarray float64 3 2 [[2#1; 12#1]; [1#1; 20#1]; [2#1; 19#1]]%Q).
Proof. split; [vm_compute; reflexivity | vm_compute; discriminate]. Qed.

(** With a generator object in place of a seed, the second of two calls
    starts from the state the first one left, and returns another pair. *)
Example two_calls_shared_generator :
  (two_calls X32 "bootstrap" (Instance_ 1234%Z)).1
  ≠ (two_calls X32 "bootstrap" (Instance_ 1234%Z)).2.
Proof. vm_compute. discriminate. Qed.

Lemma generate_discriminative_dataset_stacking_witness :
  ∃ X_ y_ g',
    wf X32 ∧
    generate_discriminative_dataset X32 "bootstrap" (Seed 1234%Z)
    = (Ok (X_, y_), g') ∧
    ∃ synth_X g1 S p,
      generate_synthetic_features X32 "bootstrap"
        (Instance_ (check_random_state (Seed 1234%Z))) = (Ok synth_X, g1) ∧
      vstack X32 synth_X = Ok S ∧
      shape0 S = 2 * shape0 X32 ∧ shape1 S = shape1 X32 ∧
      rows S = rows X32 ++ rows synth_X ∧
      length (rows X32) = shape0 X32 ∧ length (rows synth_X) = shape0 X32 ∧
      length (ones (shape0 X32) ++ zeros (shape0 X32)) = 2 * shape0 X32 ∧
      (∀ i, i < shape0 X32 →
         rows S !! i = rows X32 !! i ∧
         rows S !! (shape0 X32 + i) = rows synth_X !! i ∧
         (ones (shape0 X32) ++ zeros (shape0 X32)) !! i = Some 1%Q ∧
         (ones (shape0 X32) ++ zeros (shape0 X32)) !! (shape0 X32 + i)
         = Some 0%Q) ∧
      shuffle (arange (shape0 S)) g1 = (p, g') ∧
      p ≡ₚ seq 0 (2 * shape0 X32) ∧
      take_rows S p = Ok X_ ∧
      getitem (ones (shape0 X32) ++ zeros (shape0 X32)) p = Ok y_ ∧
      length (rows X_) = 2 * shape0 X32 ∧ length y_ = 2 * shape0 X32 ∧
      zip (rows X_) y_
      ≡ₚ zip (rows X32) (ones (shape0 X32))
         ++ zip (rows synth_X) (zeros (shape0 X32)).
Proof.
  eexists _, _, _. split; [exact wf_X32 |]. split; [vm_compute; reflexivity |].
  eapply (generate_discriminative_dataset_stacking X32 "bootstrap"
            (Seed 1234%Z)); [exact wf_X32 | vm_compute; reflexivity].
Defined.

Lemma generate_discriminative_dataset_balanced_witness :
  wf X32 ∧
  (∀ X_ y_ g',
     generate_discriminative_dataset X32 "uniform" (Seed 1234%Z)
     = (Ok (X_, y_), g') →
     shape0 X_ = 2 * shape0 X32 ∧ shape1 X_ = shape1 X32 ∧ wf X_ ∧
     length y_ = 2 * shape0 X32 ∧
     count_label 1 y_ = shape0 X32 ∧ count_label 0 y_ = shape0 X32) ∧
  ("uniform" = "bootstrap" ∨
   ("uniform" = "uniform" ∧ (1 ≤ shape0 X32 ∨ shape1 X32 = 0) ∧
    ranges_finite X32 = true) →
   ∃ X_ y_ g',
     generate_discriminative_dataset X32 "uniform" (Seed 1234%Z)
     = (Ok (X_, y_), g')) ∧
  (∀ p y_,
     p ≡ₚ seq 0 (2 * shape0 X32) →
     getitem (ones (shape0 X32) ++ zeros (shape0 X32)) p = Ok y_ →
     count_label 1 y_ = shape0 X32 ∧ count_label 0 y_ = shape0 X32).
Proof.
  split; [exact wf_X32 |].
  apply (generate_discriminative_dataset_balanced X32 "uniform" (Seed 1234%Z)).
  exact wf_X32.
Defined.

Lemma generate_discriminative_dataset_shared_permutation_witness :
  ∃ X_ y_ g',
    generate_discriminative_dataset X32 "bootstrap" (Seed 1234%Z)
    = (Ok (X_, y_), g') ∧
    ∃ synth_X g1 S p,
      generate_synthetic_features X32 "bootstrap"
        (Instance_ (check_random_state (Seed 1234%Z))) = (Ok synth_X, g1) ∧
      vstack X32 synth_X = Ok S ∧
      shuffle (arange (shape0 S)) g1 = (p, g') ∧
      take_rows S p = Ok X_ ∧
      getitem (ones (shape0 X32) ++ zeros (shape0 X32)) p = Ok y_ ∧
      p ≡ₚ seq 0 (2 * shape0 X32) ∧
      NoDup p ∧ length p = 2 * shape0 X32 ∧
      (∀ i, i ∈ p ↔ i < 2 * shape0 X32) ∧
      ∀ k, k < 2 * shape0 X32 →
        ∃ i row label,
          p !! k = Some i ∧ i < 2 * shape0 X32 ∧
          rows S !! i = Some row ∧ rows X_ !! k = Some row ∧
          (ones (shape0 X32) ++ zeros (shape0 X32)) !! i = Some label ∧
          y_ !! k = Some label.
Proof.
  eexists _, _, _. split; [vm_compute; reflexivity |].
  apply (generate_discriminative_dataset_shared_permutation X32 "bootstrap"
           (Seed 1234%Z)).
  vm_compute. reflexivity.
Defined.

Lemma bootstrap_sample_column_membership_witness :
  [5; 7; 9] ≠ [] ∧
  ∃ col g',
    bootstrap_sample_column [5; 7; 9] (Some 4) (Seed 12345%Z) = (Ok col, g') ∧
    length col = 4 ∧ Forall (λ v, v ∈ [5; 7; 9]) col.
Proof.
  assert ([5; 7; 9] ≠ @nil nat) as Hne by discriminate.
  split; [exact Hne |].
  destruct (bootstrap_sample_column_membership [5; 7; 9] (Some 4)
              (Seed 12345%Z)) as [Hsound Hret].
  destruct (Hret Hne) as (col & g' & E).
  exists col, g'. split; [exact E |]. exact (Hsound col g' E).
Defined.


Lemma generate_synthetic_features_shape_witness :
  wf X32 ∧
  ("uniform" = "uniform" ∧ (1 ≤ shape0 X32 ∨ shape1 X32 = 0) ∧
   ranges_finite X32 = true) ∧
  ∃ synth_X g',
    generate_synthetic_features X32 "uniform" (Seed 12345%Z)
    = (Ok synth_X, g') ∧
    wf synth_X ∧ shape0 synth_X = shape0 X32 ∧ shape1 synth_X = shape1 X32 ∧
    dtype synth_X = dtype X32.
Proof.
  assert ("uniform" = "uniform" ∧ (1 ≤ shape0 X32 ∨ shape1 X32 = 0) ∧
          ranges_finite X32 = true) as Hm.
  { split_and!; [reflexivity | left; simpl; lia | vm_compute; reflexivity]. }
  split; [exact wf_X32 |]. split; [exact Hm |].
  apply (generate_synthetic_features_shape X32 "uniform" (Seed 12345%Z));
    [exact wf_X32 | right; exact Hm].
Defined.

Lemma generate_discriminative_dataset_deterministic_witness :
  ∃ X_ y_ g',
    generate_discriminative_dataset X32 "bootstrap"
      (Instance_ (RandomState_seed 1234%Z)) = (Ok (X_, y_), g') ∧
    two_calls X32 "bootstrap" (Seed 1234%Z) = (Ok (X_, y_), Ok (X_, y_)) ∧
    shape0 X_ = 2 * shape0 X32 ∧ shape1 X_ = shape1 X32 ∧
    length (rows X_) = 2 * shape0 X32 ∧ length y_ = 2 * shape0 X32.
Proof.
  destruct (generate_discriminative_dataset_deterministic X32 "bootstrap"
              1234%Z) as [_ Hret].
  apply Hret; [exact wf_X32 | left; reflexivity].
Defined.

(** * Further properties of the pipeline *)

(** ** Columns of an array *)

Lemma nth_insert_same (r : list Q) c v d :
  c < length r → nth c (<[c := v]> r) d = v.
Proof. intros Hc. by rewrite nth_lookup, list_lookup_insert_eq. Qed.

Lemma nth_insert_other (r : list Q) c c' v d :
  c ≠ c' → nth c' (<[c := v]> r) d = nth c' r d.
Proof. intros Hc. by rewrite !nth_lookup, list_lookup_insert_ne. Qed.

Lemma column_of_stored (f : Q → Q) (rs : list (list Q)) c vs :
  Forall (λ r, c < length r) rs → length vs = length rs →
  map (λ r, nth c r 0%Q) (zip_with (λ r v, <[c := f v]> r) rs vs) = map f vs.
Proof.
  intros Hrs. revert vs. induction Hrs as [|r rs Hr _ IH]; intros vs Hlen.
  - by destruct vs.
  - destruct vs as [|v vs]; [done |]. simpl in *.
    rewrite nth_insert_same by done. f_equal. apply IH. lia.
Qed.

Lemma column_beside_stored (f : Q → Q) (rs : list (list Q)) c c' vs :
  c ≠ c' → length vs = length rs →
  map (λ r, nth c' r 0%Q) (zip_with (λ r v, <[c := f v]> r) rs vs)
  = map (λ r, nth c' r 0%Q) rs.
Proof.
  intros Hc. revert vs. induction rs as [|r rs IH]; intros vs Hlen.
  - by destruct vs.
  - destruct vs as [|v vs]; [done |]. simpl in *.
    rewrite nth_insert_other by done. f_equal. apply IH. lia.
Qed.

(** Reading back the column that was just stored: the values, converted to
    the dtype of the array. *)
Lemma get_column_set_column S c values S' :
  wf S → length values = shape0 S →
  set_column S c values = Ok S' →
  get_column S' c = Ok (map (astype (dtype S)) values).
Proof.
  intros (Hn & Hf & _) Hlen. unfold set_column, get_column.
  destruct (Nat.ltb_spec c (shape1 S)) as [Hc|]; [| done].
  destruct (Nat.eqb_spec (length values) (shape0 S)) as [_|]; [| done].
  intros [= <-]. cbn [shape1 rows].
  destruct (Nat.ltb_spec c (shape1 S)) as [_|]; [| lia].
  f_equal. apply column_of_stored; [| lia].
  eapply Forall_impl; [exact Hf |]. simpl. intros r ->. done.
Qed.

(** Storing a column leaves the other columns as they were. *)
Lemma get_column_set_column_other S c c' values S' :
  wf S → c ≠ c' →
  set_column S c values = Ok S' → get_column S' c' = get_column S c'.
Proof.
  intros (Hn & Hf & _) Hne. unfold set_column, get_column.
  destruct (c <? shape1 S); [| done].
  destruct (Nat.eqb_spec (length values) (shape0 S)) as [Hlen|_].
  - intros [= <-]. cbn [shape1 rows].
    destruct (c' <? shape1 S); [| done].
    f_equal. apply column_beside_stored; [done | lia].
  - destruct values as [|v [|]]; try done. intros [= <-]. cbn [shape1 rows].
    destruct (c' <? shape1 S); [| done]. f_equal.
    rewrite map_map. apply map_ext. intros r. by apply nth_insert_other.
Qed.

(** Every value of a column is a value of the array's dtype. *)
Lemma get_column_has_dtype X c X_column :
  wf X → get_column X c = Ok X_column →
  Forall (λ v, astype (dtype X) v = v) X_column.
Proof.
  intros (_ & Hf & Hd). unfold get_column.
  destruct (Nat.ltb_spec c (shape1 X)) as [Hc|]; [| done].
  intros [= <-]. change (Forall (λ v, astype (dtype X) v = v)
                           ((λ r, nth c r 0%Q) <$> rows X)).
  apply Forall_fmap, Forall_forall. intros r Hr. simpl.
  rewrite Forall_forall in Hf, Hd.
  pose proof (Hf r Hr) as Hlen. pose proof (Hd r Hr) as Hcells.
  destruct (lookup_lt_is_Some_2 r c) as [v Hv]; [lia |].
  rewrite nth_lookup, Hv. simpl.
  rewrite Forall_forall in Hcells. apply Hcells.
  by eapply list_elem_of_lookup_2.
Qed.

(** Two well-formed arrays of one shape and dtype with the same columns are
    equal. *)
Lemma ndarray_eq_columns A B :
  wf A → wf B → dtype A = dtype B →
  shape0 A = shape0 B → shape1 A = shape1 B →
  (∀ c, c < shape1 A → get_column A c = get_column B c) →
  A = B.
Proof.
  intros (HAn & HAf & _) (HBn & HBf & _) Ed E0 E1 Hcols.
  destruct A as [da a0 a1 ra], B as [db b0 b1 rb]. simpl in *.
  assert (ra = rb) as Hrows; [| congruence].
  subst b1.
  apply list_eq_same_length with a0; [lia | done |].
  intros i ra_i rb_i Hi Ha Hb.
  pose proof (Forall_lookup_1 _ _ _ _ HAf Ha) as Hla.
  pose proof (Forall_lookup_1 _ _ _ _ HBf Hb) as Hlb. simpl in *.
  apply list_eq_same_length with a1; [done | done |].
  intros c x y Hc Hx Hy.
  specialize (Hcols c Hc). unfold get_column in Hcols. simpl in Hcols.
  destruct (Nat.ltb_spec c a1) as [_|]; [| lia].
  injection Hcols as Hcols.
  assert (map (λ r, nth c r 0%Q) ra !! i = map (λ r, nth c r 0%Q) rb !! i)
    as Hi' by (by rewrite Hcols).
  change (((λ r, nth c r 0%Q) <$> ra) !! i = ((λ r, nth c r 0%Q) <$> rb) !! i)
    in Hi'.
  rewrite !list_lookup_fmap, Ha, Hb in Hi'. simpl in Hi'.
  rewrite !nth_lookup, Hx, Hy in Hi'. simpl in Hi'. congruence.
Qed.

(** Values that are already of the dtype are stored as they are. *)
Lemma astype_fixed d (X_column sampled : list Q) :
  Forall (λ v, astype d v = v) X_column →
  Forall (λ v, v ∈ X_column) sampled →
  map (astype d) sampled = sampled.
Proof.
  intros HX Hs. induction Hs as [|v sampled Hv _ IH]; [done |].
  simpl. rewrite IH. f_equal.
  rewrite Forall_forall in HX. by apply HX.
Qed.

(** ** The generator's loop, column by column *)

Section ColumnProperties.
Context {G : Type} `{RS : RandomState G}.

Lemma sampled_by_length method X_column g sampled g' :
  sampled_by method X_column g sampled g' → length sampled = length X_column.
Proof.
  intros [[_ H]|[_ H]].
  - by eapply bootstrap_column_length.
  - by eapply uniform_column_length.
Qed.

Lemma generate_synthetic_features_loop_step X method c columns S g S' g' :
  generate_synthetic_features_loop X method (c :: columns) S g = (Ok S', g') →
  ∃ X_column sampled g1 S1,
    get_column X c = Ok X_column ∧
    sampled_by method X_column g sampled g1 ∧
    set_column S c sampled = Ok S1 ∧
    generate_synthetic_features_loop X method columns S1 g1 = (Ok S', g').
Proof.
  simpl. unfold bind, lift, sampled_by. intros H.
  destruct (String.eqb_spec method "bootstrap") as [Hb|Hb].
  - destruct (get_column X c) as [col|]; [| done].
    destruct (bootstrap_sample_column col None (Instance_ g))
      as [[sampled|] g1] eqn:Hs; [| done].
    destruct (set_column S c sampled) as [S1|] eqn:Hset; [| done].
    exists col, sampled, g1, S1. split_and!; auto.
  - destruct (String.eqb_spec method "uniform") as [Hu|Hu]; [| done].
    destruct (get_column X c) as [col|]; [| done].
    destruct (uniform_sample_column col None (Instance_ g))
      as [[sampled|] g1] eqn:Hs; [| done].
    destruct (set_column S c sampled) as [S1|] eqn:Hset; [| done].
    exists col, sampled, g1, S1. split_and!; auto.
Qed.

(** What the loop over the columns [k .. k+m-1] leaves behind: a chain of
    generator states, one sampled column per iteration, stored in the dtype
    of the array, and the columns before [k] untouched. *)
Lemma generate_synthetic_features_loop_chain X method :
  wf X →
  ∀ m k A g A' g',
    wf A → shape0 A = shape0 X → shape1 A = shape1 X →
    generate_synthetic_features_loop X method (seq k m) A g = (Ok A', g') →
    ∃ gs,
      length gs = S m ∧ gs !! 0 = Some g ∧ gs !! m = Some g' ∧
      (∀ j, j < m →
         ∃ X_column sampled ga gb,
           gs !! j = Some ga ∧ gs !! (S j) = Some gb ∧
           get_column X (k + j) = Ok X_column ∧
           get_column A' (k + j) = Ok (map (astype (dtype A)) sampled) ∧
           sampled_by method X_column ga sampled gb) ∧
      (∀ c, c < k → get_column A' c = get_column A c).
Proof.
  intros (HXn & HXf & _).
  induction m as [|m IH]; intros k A g A' g' HA E0 E1 H.
  - simpl in H. injection H as <- <-. exists [g].
    split_and!; try done. intros j Hj. lia.
  - rewrite <- cons_seq in H.
    apply generate_synthetic_features_loop_step in H
      as (Xc & Sc & g1 & A1 & HXc & Hs & Hset & H).
    pose proof (sampled_by_length _ _ _ _ _ Hs) as Hlen.
    assert (length Xc = length (rows X)) as HlenX.
    { unfold get_column in HXc. destruct (k <? shape1 X); [| done].
      injection HXc as <-. apply length_map. }
    destruct (set_column_shape _ _ _ _ Hset HA) as (HA1 & F0 & F1).
    pose proof (set_column_dtype _ _ _ _ Hset) as Fd.
    destruct (IH (S k) A1 g1 A' g' HA1)
      as (gs & Hgs & Hhd & Hlast & Hcols & Hkeep);
      [congruence | congruence | exact H |].
    assert (get_column A' k = Ok (map (astype (dtype A)) Sc)) as Hk.
    { rewrite Hkeep by lia.
      apply (get_column_set_column A k Sc A1); [exact HA | lia | exact Hset]. }
    exists (g :: gs). split_and!.
    + simpl. lia.
    + done.
    + done.
    + intros [|j] Hj.
      * exists Xc, Sc, g, g1. rewrite Nat.add_0_r. by split_and!.
      * destruct (Hcols j) as (Xc' & Sc' & ga & gb & ? & ? & ? & HSc' & ?);
          [lia |].
        exists Xc', Sc', ga, gb. rewrite Fd in HSc'.
        replace (k + S j) with (S k + j) by lia. by split_and!.
    + intros c Hc. rewrite Hkeep by lia.
      apply (get_column_set_column_other A k c Sc A1);
        [exact HA | lia | exact Hset].
Qed.

(** X1.  The Synthetic Feature Generator draws its columns one after the
    other from a single generator: there is a chain of generator states, from
    the state the call starts in to the state it returns, such that column
    [c] of the result is what the method's sampler returns for column [c] of
    [X] in the [c]-th state, converted to the dtype of [X] as it is stored
    (on an int64 matrix the samples of the uniform strategy lose their
    fraction), and the sampler leaves the next state.  No column is sampled
    from a reset generator. *)
Theorem generate_synthetic_features_threads_generator (X : ndarray)
    (method : string) (random_state : random_state_arg G)
    (synth_X : ndarray) (g' : G) :
  wf X →
  generate_synthetic_features X method random_state = (Ok synth_X, g') →
  ∃ gs,
    length gs = S (shape1 X) ∧
    gs !! 0 = Some (check_random_state random_state) ∧
    gs !! shape1 X = Some g' ∧
    ∀ c, c < shape1 X →
      ∃ X_column sampled ga gb,
        gs !! c = Some ga ∧ gs !! (S c) = Some gb ∧
        get_column X c = Ok X_column ∧
        sampled_by method X_column ga sampled gb ∧
        get_column synth_X c = Ok (map (astype (dtype X)) sampled) ∧
        (dtype X = float64 → get_column synth_X c = Ok sampled) ∧
        (method = "bootstrap" → get_column synth_X c = Ok sampled).
Proof.
  intros HX H. unfold generate_synthetic_features in H.
  destruct (generate_synthetic_features_loop_chain X method HX _ _ _ _ _ _
              (wf_empty_like X) eq_refl eq_refl H)
    as (gs & Hlen & Hhd & Hlast & Hcols & _).
  exists gs. split_and!; [done | done | done |].
  intros c Hc.
  destruct (Hcols c Hc) as (Xc & Sc & ga & gb & Hga & Hgb & HXc & HSc & Hs).
  simpl in HXc, HSc.
  exists Xc, Sc, ga, gb. split_and!; try done.
  - intros Hd. rewrite HSc, Hd. simpl. by rewrite map_id.
  - intros ->. rewrite HSc. f_equal.
    apply (astype_fixed _ Xc); [by eapply get_column_has_dtype |].
    destruct Hs as [[_ Hs]|[Hm _]]; [| done].
    unfold bootstrap_sample_column in Hs. by apply choice_sound in Hs as [_ ?].
Qed.

(** X2.  Bootstrap strategy, whole matrix: every value in column [c] of the
    synthetic matrix occurs in column [c] of [X], and the column has the row
    count of [X]. *)
Theorem generate_synthetic_features_bootstrap_values (X : ndarray)
    (random_state : random_state_arg G) (synth_X : ndarray) (g' : G) :
  wf X →
  generate_synthetic_features X "bootstrap" random_state = (Ok synth_X, g') →
  ∀ c, c < shape1 X →
    ∃ X_column sampled,
      get_column X c = Ok X_column ∧
      get_column synth_X c = Ok sampled ∧
      length sampled = shape0 X ∧
      Forall (λ v, v ∈ X_column) sampled.
Proof.
  intros HX H c Hc. unfold generate_synthetic_features in H.
  destruct (generate_synthetic_features_loop_chain X _ HX _ _ _ _ _ _
              (wf_empty_like X) eq_refl eq_refl H)
    as (gs & _ & _ & _ & Hcols & _).
  destruct (Hcols c Hc) as (Xc & Sc & ga & gb & _ & _ & HXc & HSc & Hs).
  simpl in HXc, HSc.
  assert (Forall (λ v, v ∈ Xc) Sc) as Hin.
  { destruct Hs as [[_ Hs]|[Hm _]]; [| done].
    unfold bootstrap_sample_column in Hs. by apply choice_sound in Hs as [_ ?]. }
  rewrite (astype_fixed _ Xc) in HSc;
    [| by eapply get_column_has_dtype | done].
  exists Xc, Sc. split_and!; try done.
  rewrite (sampled_by_length _ _ _ _ _ Hs).
  unfold get_column in HXc. destruct (c <? shape1 X); [| done].
  injection HXc as <-. rewrite length_map. by destruct HX.
Qed.


(** The state a sampler leaves depends on how many values it draws, not on
    the values of the column. *)
Lemma uniform_fill_state loc scale loc' scale' size g :
  (uniform_fill loc scale size g).2 = (uniform_fill loc' scale' size g).2.
Proof.
  revert g. induction size as [|k IH]; intros g; simpl; [done |].
  destruct (rk_double g) as [u g1]. specialize (IH g1).
  destruct (uniform_fill loc scale k g1), (uniform_fill loc' scale' k g1).
  done.
Qed.

Lemma choice_state {A} (a : list A) size g vs g' :
  choice a size g = (Ok vs, g') → g' = (randint_fill 0 (length a) size g).2.
Proof.
  unfold choice, bind, randint, lift, ret.
  destruct ((length a =? 0) && negb (size =? 0)); [done |].
  destruct (Nat.eqb_spec size 0) as [-> |_].
  { simpl. by intros [= _ <-]. }
  destruct (length a <=? 0); [done |].
  destruct (randint_fill 0 (length a) size g) as [idx g1].
  destruct (getitem a idx); [| done]. by intros [= _ <-].
Qed.

Lemma uniform_sample_column_state (X : list Q) g col g' :
  uniform_sample_column X None (Instance_ g) = (Ok col, g') →
  g' = (uniform_fill 0 0 (length X) g).2.
Proof.
  unfold uniform_sample_column, bind, lift, uniform. simpl.
  destruct (np_min X) as [lo|]; [| done].
  destruct (np_max X) as [hi|]; [| done].
  destruct (isfinite (hi - lo)); [| done].
  rewrite (uniform_fill_state 0 0 lo (hi - lo)).
  destruct (uniform_fill lo (hi - lo) (length X) g) as [vs g1].
  by intros [= _ <-].
Qed.

Lemma sampled_by_state method X1 X2 g s1 g1 s2 g2 :
  length X1 = length X2 →
  sampled_by method X1 g s1 g1 → sampled_by method X2 g s2 g2 → g1 = g2.
Proof.
  intros Hlen [[Hm H1]|[Hm H1]] [[Hm' H2]|[Hm' H2]]; try congruence.
  - apply choice_state in H1, H2. congruence.
  - apply uniform_sample_column_state in H1, H2. congruence.
Qed.

Lemma sampled_by_functional method X1 g s1 g1 s2 g2 :
  sampled_by method X1 g s1 g1 → sampled_by method X1 g s2 g2 →
  s1 = s2 ∧ g1 = g2.
Proof.
  intros [[Hm H1]|[Hm H1]] [[Hm' H2]|[Hm' H2]]; try congruence.
  - rewrite H1 in H2. by injection H2.
  - rewrite H1 in H2. by injection H2.
Qed.

Lemma get_column_length X c X_column :
  wf X → get_column X c = Ok X_column → length X_column = shape0 X.
Proof.
  intros [Hn _]. unfold get_column. destruct (c <? shape1 X); [| done].
  intros [= <-]. by rewrite length_map.
Qed.

(** Two runs of the loop from the same generator state, on matrices of one
    shape and from any two starting arrays: the states agree, and wherever
    the input columns agree the two runs sampled the same column, which each
    stored in its own dtype. *)
Lemma generate_synthetic_features_loop_agree X X' method A B g A' g1 B' g2 :
  wf X → wf X' → shape0 X = shape0 X' → shape1 X = shape1 X' →
  wf A → shape0 A = shape0 X → shape1 A = shape1 X →
  wf B → shape0 B = shape0 X' → shape1 B = shape1 X' →
  generate_synthetic_features_loop X method (seq 0 (shape1 X)) A g
  = (Ok A', g1) →
  generate_synthetic_features_loop X' method (seq 0 (shape1 X')) B g
  = (Ok B', g2) →
  g1 = g2 ∧
  ∀ c, c < shape1 X → get_column X c = get_column X' c →
       ∃ X_column sampled ga gb,
         get_column X c = Ok X_column ∧
         sampled_by method X_column ga sampled gb ∧
         get_column A' c = Ok (map (astype (dtype A)) sampled) ∧
         get_column B' c = Ok (map (astype (dtype B)) sampled).
Proof.
  intros HX HX' E0 E1 HA EA0 EA1 HB EB0 EB1 H1 H2.
  destruct (generate_synthetic_features_loop_chain X method HX _ _ _ _ _ _
              HA EA0 EA1 H1) as (gs & Hlen & Hhd & Hlast & Hcols & _).
  destruct (generate_synthetic_features_loop_chain X' method HX' _ _ _ _ _ _
              HB EB0 EB1 H2) as (gs' & Hlen' & Hhd' & Hlast' & Hcols' & _).
  rewrite <- E1 in Hlast', Hcols'.
  assert (∀ c, c ≤ shape1 X → gs !! c = gs' !! c) as Hstates.
  { induction c as [|c IH]; intros Hc; [congruence |].
    destruct (Hcols c) as (Xc & Sc & ga & gb & Hga & Hgb & HXc & _ & Hs);
      [lia |].
    destruct (Hcols' c)
      as (Xc' & Sc' & ga' & gb' & Hga' & Hgb' & HXc' & _ & Hs'); [lia |].
    simpl in HXc, HXc'.
    assert (ga = ga') as <- by (rewrite IH in Hga by lia; congruence).
    rewrite Hgb, Hgb'. f_equal.
    eapply sampled_by_state; [| exact Hs | exact Hs'].
    rewrite (get_column_length _ _ _ HX HXc).
    rewrite (get_column_length _ _ _ HX' HXc'). done. }
  split.
  - specialize (Hstates (shape1 X)). rewrite Hlast, Hlast' in Hstates.
    assert (Some g1 = Some g2) as [= ->] by (apply Hstates; lia). done.
  - intros c Hc Hsame.
    destruct (Hcols c Hc) as (Xc & Sc & ga & gb & Hga & _ & HXc & HSc & Hs).
    destruct (Hcols' c Hc)
      as (Xc' & Sc' & ga' & gb' & Hga' & _ & HXc' & HSc' & Hs').
    simpl in *.
    assert (ga = ga') as <- by (rewrite Hstates in Hga by lia; congruence).
    assert (Xc = Xc') as <- by congruence.
    destruct (sampled_by_functional _ _ _ _ _ _ _ Hs Hs') as [<- _].
    by exists Xc, Sc, ga, gb.
Qed.

(** X4.  A synthetic column depends on its own input column only.  For two
    matrices of one shape, the same method and the same generator state,
    the generator is left in the same state, and wherever the two matrices
    have the same column [c] the two synthetic matrices have the same
    column [c]: what the other columns hold has no influence.  The two
    matrices have one dtype, or the strategy is the bootstrap, whose values
    are stored as they are in either dtype. *)
Theorem generate_synthetic_features_column_independence (X X' : ndarray)
    (method : string) (random_state : random_state_arg G)
    (synth_X synth_X' : ndarray) (g1 g2 : G) :
  wf X → wf X' → dtype X = dtype X' ∨ method = "bootstrap" →
  shape0 X = shape0 X' → shape1 X = shape1 X' →
  generate_synthetic_features X method random_state = (Ok synth_X, g1) →
  generate_synthetic_features X' method random_state = (Ok synth_X', g2) →
  g1 = g2 ∧
  ∀ c, c < shape1 X → get_column X c = get_column X' c →
       get_column synth_X c = get_column synth_X' c.
Proof.
  intros HX HX' Hd E0 E1 H1 H2.
  destruct (generate_synthetic_features_loop_agree X X' method
              (empty_like X) (empty_like X')
              (check_random_state random_state) synth_X g1 synth_X' g2)
    as [Hg Hcols]; try done; try apply wf_empty_like.
  split; [exact Hg |]. intros c Hc Hsame.
  destruct (Hcols c Hc Hsame) as (Xc & Sc & ga & gb & HXc & Hs & -> & ->).
  simpl. f_equal. destruct Hd as [-> | ->]; [done |].
  assert (Forall (λ v, v ∈ Xc) Sc) as Hin.
  { destruct Hs as [[_ Hs]|[Hm _]]; [| done].
    unfold bootstrap_sample_column in Hs. by apply choice_sound in Hs as [_ ?]. }
  rewrite (astype_fixed (dtype X) Xc); [| by eapply get_column_has_dtype | done].
  rewrite (astype_fixed (dtype X') Xc); [done | | done].
  apply (get_column_has_dtype X' c); [done | congruence].
Qed.

Lemma set_column_outcome A B c values :
  shape0 A = shape0 B → shape1 A = shape1 B →
  match set_column A c values, set_column B c values with
  | Ok _, Ok _ => True
  | Raise e1, Raise e2 => e1 = e2
  | _, _ => False
  end.
Proof.
  intros E0 E1. unfold set_column. rewrite E0, E1.
  destruct (c <? shape1 B); [| done].
  destruct (length values =? shape0 B); [done |].
  by destruct values as [|v [|]].
Qed.

(** Whether the loop returns or raises, and the state it leaves, do not
    depend on the array it fills. *)
Lemma generate_synthetic_features_loop_outcome X method columns :
  ∀ A B g,
    wf A → wf B → shape0 A = shape0 B → shape1 A = shape1 B →
    match generate_synthetic_features_loop X method columns A g,
          generate_synthetic_features_loop X method columns B g with
    | (Ok _, g1), (Ok _, g2) => g1 = g2
    | (Raise e1, g1), (Raise e2, g2) => e1 = e2 ∧ g1 = g2
    | _, _ => False
    end.
Proof.
  induction columns as [|c columns IH]; intros A B g HA HB E0 E1; [done |].
  simpl. unfold bind, lift.
  destruct (String.eqb method "bootstrap").
  - destruct (get_column X c) as [col|]; [| done].
    destruct (bootstrap_sample_column col None (Instance_ g))
      as [[sampled|] g1]; [| done].
    pose proof (set_column_outcome A B c sampled E0 E1) as Hset.
    destruct (set_column A c sampled) as [A1|] eqn:HA1,
             (set_column B c sampled) as [B1|] eqn:HB1; try done.
    destruct (set_column_shape _ _ _ _ HA1 HA) as (? & ? & ?).
    destruct (set_column_shape _ _ _ _ HB1 HB) as (? & ? & ?).
    apply IH; [done | done | congruence | congruence].
  - destruct (String.eqb method "uniform"); [| done].
    destruct (get_column X c) as [col|]; [| done].
    destruct (uniform_sample_column col None (Instance_ g))
      as [[sampled|] g1]; [| done].
    pose proof (set_column_outcome A B c sampled E0 E1) as Hset.
    destruct (set_column A c sampled) as [A1|] eqn:HA1,
             (set_column B c sampled) as [B1|] eqn:HB1; try done.
    destruct (set_column_shape _ _ _ _ HA1 HA) as (? & ? & ?).
    destruct (set_column_shape _ _ _ _ HB1 HB) as (? & ? & ?).
    apply IH; [done | done | congruence | congruence].
Qed.

(** X5.  The array that [np.empty_like] hands to the loop does not show in
    the result: started from any array of the shape and dtype of [X], the
    loop over all columns ends exactly as the generator does, with the same
    matrix, the same error and the same generator state.  Every cell of the
    returned matrix was written by a sampler. *)
Theorem generate_synthetic_features_initial_array_irrelevant (X A : ndarray)
    (method : string) (g : G) :
  wf X → wf A → dtype A = dtype X →
  shape0 A = shape0 X → shape1 A = shape1 X →
  generate_synthetic_features_loop X method (seq 0 (shape1 X)) A g
  = generate_synthetic_features X method (Instance_ g).
Proof.
  intros HX HA Ed E0 E1. unfold generate_synthetic_features.
  cbn [check_random_state].
  pose proof (generate_synthetic_features_loop_outcome X method
                (seq 0 (shape1 X)) A (empty_like X) g HA (wf_empty_like X)
                E0 E1) as Hout.
  destruct (generate_synthetic_features_loop X method (seq 0 (shape1 X)) A g)
    as [[A'|e1] g1] eqn:H1;
  destruct (generate_synthetic_features_loop X method (seq 0 (shape1 X))
              (empty_like X) g) as [[B'|e2] g2] eqn:H2; try done.
  - destruct (generate_synthetic_features_loop_agree X X method A
                (empty_like X) g A' g1 B' g2) as [-> Hcols]; try done.
    { apply wf_empty_like. }
    assert (∀ c, c < shape1 X → get_column A' c = get_column B' c) as Hsame.
    { intros c Hc.
      destruct (Hcols c Hc eq_refl) as (Xc & Sc & ga & gb & _ & _ & -> & ->).
      by rewrite Ed. }
    destruct (generate_synthetic_features_loop_shape _ _ _ _ _ _ _ H1 HA)
      as (HA' & F0 & F1).
    destruct (generate_synthetic_features_loop_shape _ _ _ _ _ _ _ H2
                (wf_empty_like X)) as (HB' & F0' & F1').
    pose proof (generate_synthetic_features_loop_dtype _ _ _ _ _ _ _ H1) as Fd.
    pose proof (generate_synthetic_features_loop_dtype _ _ _ _ _ _ _ H2)
      as Fd'.
    simpl in F0', F1', Fd'.
    f_equal. f_equal. apply ndarray_eq_columns; try done; try congruence.
    intros c Hc. apply Hsame. lia.
  - by destruct Hout as [-> ->].
Qed.

End ColumnProperties.

(** ** Edge cases of the uniform sampler *)

Section UniformEdges.
Context {G : Type} `{RS : RandomState G}.

(** X7.  The uniform sampler has no answer for an empty column: it raises
    the [ValueError] of [np.min] whatever sample count is asked for, zero
    included, and before the generator is used. *)
Theorem uniform_sample_column_empty (n_samples : option nat)
    (random_state : random_state_arg G) :
  uniform_sample_column [] n_samples random_state
  = (Raise (ValueError "zero-size array to reduction operation minimum which has no identity"),
     check_random_state random_state).
Proof. by destruct n_samples. Qed.


End UniformEdges.

(** ** The builder's output as a whole *)

Section BuilderOutput.
Context {G : Type} `{RS : RandomState G}.

(** X9.  The builder loses no row and invents none: the (row, label) pairs
    it returns are a rearrangement of the rows of [X], each paired with the
    label 1, followed by the rows of the synthetic matrix, each paired with
    the label 0. *)
Theorem generate_discriminative_dataset_pairs (X : ndarray) (method : string)
    (random_state : random_state_arg G) (X_ : ndarray) (y_ : list Q) (g' : G) :
  wf X →
  generate_discriminative_dataset X method random_state = (Ok (X_, y_), g') →
  ∃ synth_X g1,
    generate_synthetic_features X method
      (Instance_ (check_random_state random_state)) = (Ok synth_X, g1) ∧
    zip (rows X_) y_
    ≡ₚ zip (rows X) (ones (shape0 X)) ++ zip (rows synth_X) (zeros (shape0 X)).
Proof.
  intros HX H.
  apply generate_discriminative_dataset_inv in H
    as (synth_X & g1 & A & p & Hsynth & HA & Hp & HX_ & Hy_).
  exists synth_X, g1. split; [done |].
  destruct (generate_synthetic_features_inv _ _ _ _ _ Hsynth)
    as ((Hsn & _) & E0 & E1).
  destruct HX as (HXn & _).
  destruct (vstack_inv _ _ _ HA) as (_ & HA0 & _ & HAr).
  destruct (take_rows_inv _ _ _ HX_) as (_ & _ & Hrows).
  pose proof (shuffle_Permutation (arange (shape0 A)) g1) as Hperm.
  rewrite Hp in Hperm. cbn [fst] in Hperm. unfold arange in Hperm.
  pose proof (getitem_zip _ _ _ _ _ Hrows Hy_) as Hzip.
  assert (zip (rows A) (ones (shape0 X) ++ zeros (shape0 X))
          = zip (rows X) (ones (shape0 X))
            ++ zip (rows synth_X) (zeros (shape0 X))) as Hsplit.
  { rewrite HAr. unfold zip. apply zip_with_app.
    unfold ones. by rewrite length_replicate. }
  rewrite <- Hsplit. eapply getitem_Permutation; [| exact Hzip].
  assert (length (zip (rows A) (ones (shape0 X) ++ zeros (shape0 X)))
          = shape0 A) as ->; [| done].
  rewrite length_zip_with, HAr, !length_app. unfold ones, zeros.
  rewrite !length_replicate. lia.
Qed.

(** X10.  An unknown method name stops the builder before anything is
    drawn, stacked or shuffled: for a matrix with at least one column the
    call raises the generator's [ValueError] and leaves the random generator
    in its initial state. *)
Theorem generate_discriminative_dataset_unknown_method (X : ndarray)
    (method : string) (random_state : random_state_arg G) :
  1 ≤ shape1 X → method ≠ "bootstrap" → method ≠ "uniform" →
  generate_discriminative_dataset X method random_state
  = (Raise (ValueError "method must be either `bootstrap` or `uniform`."),
     check_random_state random_state).
Proof.
  intros Hf Hb Hu.
  unfold generate_discriminative_dataset, bind, generate_synthetic_features.
  cbn [check_random_state].
  destruct (shape1 X) as [|f]; [lia |]. rewrite <- cons_seq.
  by rewrite generate_synthetic_features_loop_unknown.
Qed.

End BuilderOutput.

(** A property of the cells of column [c] that holds in [X] and in the
    synthetic matrix holds in the shuffled stack of the two. *)
Lemma stacked_column_Forall (P : Q → Prop) X synth_X A p X_ c :
  vstack X synth_X = Ok A → take_rows A p = Ok X_ → c < shape1 X →
  Forall P (map (λ r, nth c r 0%Q) (rows X)) →
  Forall P (map (λ r, nth c r 0%Q) (rows synth_X)) →
  ∃ out, get_column X_ c = Ok out ∧ length out = length p ∧ Forall P out.
Proof.
  intros HA HX_ Hc HPX HPs.
  destruct (vstack_inv _ _ _ HA) as (_ & _ & HA1 & HAr).
  destruct (take_rows_inv _ _ _ HX_) as (_ & HX1 & Hrows).
  unfold get_column. rewrite HX1, HA1.
  destruct (Nat.ltb_spec c (shape1 X)) as [_|]; [| lia].
  eexists. split; [done |]. split.
  - rewrite length_map. by apply getitem_length in Hrows.
  - apply getitem_elem_of in Hrows. rewrite HAr in Hrows.
    change (Forall P ((λ r, nth c r 0%Q) <$> rows X_)).
    apply Forall_fmap. eapply Forall_impl; [exact Hrows |].
    intros r Hr. simpl in *. apply elem_of_app in Hr as [Hr|Hr].
    + rewrite Forall_forall in HPX. apply HPX.
      apply (list_elem_of_fmap_2 (λ r, nth c r 0%Q)). exact Hr.
    + rewrite Forall_forall in HPs. apply HPs.
      apply (list_elem_of_fmap_2 (λ r, nth c r 0%Q)). exact Hr.
Qed.

Section BuilderValues.
Context {G : Type} `{RS : RandomState G}.

(** X11.  Under the bootstrap strategy the discriminative dataset holds no
    new value: every cell in column [c] of the returned matrix, whether its
    row is real or synthetic, is a value of column [c] of [X]. *)
Theorem generate_discriminative_dataset_bootstrap_values (X : ndarray)
    (random_state : random_state_arg G) (X_ : ndarray) (y_ : list Q) (g' : G) :
  wf X →
  generate_discriminative_dataset X "bootstrap" random_state
  = (Ok (X_, y_), g') →
  ∀ c, c < shape1 X →
    ∃ X_column out,
      get_column X c = Ok X_column ∧ get_column X_ c = Ok out ∧
      length out = 2 * shape0 X ∧
      Forall (λ v, v ∈ X_column) out.
Proof.
  intros HX H c Hc.
  apply generate_discriminative_dataset_inv in H
    as (synth_X & g1 & A & p & Hsynth & HA & Hp & HX_ & Hy_).
  pose proof Hsynth as Hloop. unfold generate_synthetic_features in Hloop.
  destruct (generate_synthetic_features_loop_chain X _ HX _ _ _ _ _ _
              (wf_empty_like X) eq_refl eq_refl Hloop)
    as (gs & _ & _ & _ & Hcols & _).
  destruct (Hcols c Hc) as (Xc & Sc & ga & gb & _ & _ & HXc & HSc & Hs).
  simpl in HXc, HSc.
  destruct Hs as [[_ Hs]|[Hm _]]; [| done].
  unfold bootstrap_sample_column in Hs. apply choice_sound in Hs as [_ Hin].
  rewrite (astype_fixed _ Xc) in HSc;
    [| by eapply get_column_has_dtype | done].
  destruct (generate_synthetic_features_inv _ _ _ _ _ Hsynth)
    as (_ & E0 & E1).
  destruct (vstack_inv _ _ _ HA) as (_ & HA0 & _ & _).
  pose proof (shuffle_Permutation (arange (shape0 A)) g1) as Hperm.
  rewrite Hp in Hperm. cbn [fst] in Hperm. unfold arange in Hperm.
  pose proof HXc as HXc'. pose proof HSc as HSc'.
  unfold get_column in HXc', HSc'. rewrite E1 in HSc'.
  destruct (c <? shape1 X); [| done].
  injection HXc' as HXc'. injection HSc' as HSc'.
  destruct (stacked_column_Forall (λ v, v ∈ Xc) X synth_X A p X_ c HA HX_ Hc)
    as (out & Hout & Hlen & HP).
  - rewrite HXc'. apply Forall_forall. auto.
  - by rewrite HSc'.
  - exists Xc, out. split_and!; try done.
    rewrite Hlen, Hperm, length_seq. lia.
Qed.


End BuilderValues.

(** ** The embedder and a wrong method name *)

Section EmbedderMethod.
Context {G : Type} `{RS : RandomState G}.
Context {Trees : Type} `{SK : Sklearn Trees}.

(** X13.  The constructor takes any method name; a wrong one shows at fit
    time.  When validation accepts [X] as a matrix with at least one column
    and the embedder's method is neither "bootstrap" nor "uniform", both
    [fit_transform] and [fit] raise the generator's [ValueError] and leave
    the embedder as it was: nothing is trained. *)
Theorem fit_unknown_method (self : RandomForest2Embedding Trees)
    (X X0 : ndarray) (y sample_weight : option (list Q)) (n_components : nat) :
  check_array X = Ok X0 → 1 ≤ shape1 X0 →
  method (params self) ≠ "bootstrap" → method (params self) ≠ "uniform" →
  fit_transform self X y sample_weight n_components
  = (Raise (ValueError "method must be either `bootstrap` or `uniform`."),
     self) ∧
  fit self X y sample_weight
  = (Raise (ValueError "method must be either `bootstrap` or `uniform`."),
     self).
Proof.
  intros Hcheck Hf Hb Hu.
  assert (∀ n, fit_transform self X y sample_weight n
               = (Raise (ValueError "method must be either `bootstrap` or `uniform`."),
                  self)) as Hft.
  { intros n. unfold fit_transform. rewrite Hcheck.
    unfold generate_discriminative_dataset, bind, generate_synthetic_features.
    cbn [check_random_state].
    destruct (shape1 X0) as [|f]; [lia |]. rewrite <- cons_seq.
    by rewrite generate_synthetic_features_loop_unknown. }
  split; [apply Hft |]. unfold fit. by rewrite Hft.
Qed.

End EmbedderMethod.

(** ** A matrix without rows *)

Section EmptyInput.
Context {G : Type} `{RS : RandomState G}.

(** X14.  The uniform strategy cannot start from a matrix that has columns
    but no rows: the generator and the builder both raise the [ValueError]
    of [np.min] at the first column, with the random generator still in its
    initial state. *)
Theorem uniform_no_rows (X : ndarray) (random_state : random_state_arg G) :
  wf X → shape0 X = 0 → 1 ≤ shape1 X →
  generate_synthetic_features X "uniform" random_state
  = (Raise (ValueError "zero-size array to reduction operation minimum which has no identity"),
     check_random_state random_state) ∧
  generate_discriminative_dataset X "uniform" random_state
  = (Raise (ValueError "zero-size array to reduction operation minimum which has no identity"),
     check_random_state random_state).
Proof.
  intros (Hn & _) H0 Hf.
  destruct X as [d n f rs]. simpl in *. subst n.
  destruct rs; [| done]. destruct f as [|f]; [lia |]. by split.
Qed.

End EmptyInput.

(** ** The further properties on examples (generator [lcg]) *)

Lemma wf_X32' : wf X32'.
Proof. split; [reflexivity | repeat constructor]. Qed.

Lemma generate_synthetic_features_threads_generator_witness :
  ∃ synth_X g',
    generate_synthetic_features X32i "uniform" (Seed 12345%Z)
    = (Ok synth_X, g') ∧
    ∃ gs,
      length gs = S (shape1 X32i) ∧
      gs !! 0 = Some (check_random_state (Seed 12345%Z)) ∧
      gs !! shape1 X32i = Some g' ∧
      ∀ c, c < shape1 X32i →
        ∃ X_column sampled ga gb,
          gs !! c = Some ga ∧ gs !! (S c) = Some gb ∧
          get_column X32i c = Ok X_column ∧
          sampled_by "uniform" X_column ga sampled gb ∧
          get_column synth_X c = Ok (map (astype (dtype X32i)) sampled) ∧
          (dtype X32i = float64 → get_column synth_X c = Ok sampled) ∧
          ("uniform" = "bootstrap" → get_column synth_X c = Ok sampled).
Proof.
  eexists _, _. split; [vm_compute; reflexivity |].
  apply (generate_synthetic_features_threads_generator X32i "uniform"
           (Seed 12345%Z)); [exact wf_X32i | vm_compute; reflexivity].
Defined.

Lemma generate_synthetic_features_bootstrap_values_witness :
  ∃ synth_X g',
    generate_synthetic_features X32 "bootstrap" (Seed 12345%Z)
    = (Ok synth_X, g') ∧
    ∀ c, c < shape1 X32 →
      ∃ X_column sampled,
        get_column X32 c = Ok X_column ∧
        get_column synth_X c = Ok sampled ∧
        length sampled = shape0 X32 ∧
        Forall (λ v, v ∈ X_column) sampled.
Proof.
  eexists _, _. split; [vm_compute; reflexivity |].
  eapply (generate_synthetic_features_bootstrap_values X32 (Seed 12345%Z));
    [exact wf_X32 | vm_compute; reflexivity].
Defined.


Lemma generate_synthetic_features_column_independence_witness :
  ∃ synth_X synth_X' g1 g2,
    generate_synthetic_features X32 "uniform" (Seed 12345%Z)
    = (Ok synth_X, g1) ∧
    generate_synthetic_features X32' "uniform" (Seed 12345%Z)
    = (Ok synth_X', g2) ∧
    g1 = g2 ∧
    ∀ c, c < shape1 X32 → get_column X32 c = get_column X32' c →
         get_column synth_X c = get_column synth_X' c.
Proof.
  eexists _, _, _, _. split; [vm_compute; reflexivity |].
  split; [vm_compute; reflexivity |].
  apply (generate_synthetic_features_column_independence X32 X32' "uniform"
           (Seed 12345%Z));
    [exact wf_X32 | exact wf_X32' | left; reflexivity | reflexivity
    | reflexivity | vm_compute; reflexivity | vm_compute; reflexivity].
Defined.

Lemma generate_synthetic_features_initial_array_irrelevant_witness :
  generate_synthetic_features_loop X32 "bootstrap" (seq 0 (shape1 X32))
    X32' 7%Z
  = generate_synthetic_features X32 "bootstrap" (Instance_ 7%Z).
Proof.
  apply (generate_synthetic_features_initial_array_irrelevant X32 X32'
           "bootstrap" 7%Z);
    [exact wf_X32 | exact wf_X32' | reflexivity | reflexivity | reflexivity].
Defined.

Lemma generate_synthetic_features_unknown_method_witness :
  generate_synthetic_features X32 "gaussian" (Seed 12345%Z)
  = (Raise (ValueError "method must be either `bootstrap` or `uniform`."),
     check_random_state (Seed 12345%Z)).
Proof.
  apply (generate_synthetic_features_unknown_method X32 "gaussian"
           (Seed 12345%Z)); [simpl; lia | discriminate | discriminate].
Defined.


Lemma generate_discriminative_dataset_pairs_witness :
  ∃ X_ y_ g',
    generate_discriminative_dataset X32 "bootstrap" (Seed 1234%Z)
    = (Ok (X_, y_), g') ∧
    ∃ synth_X g1,
      generate_synthetic_features X32 "bootstrap"
        (Instance_ (check_random_state (Seed 1234%Z))) = (Ok synth_X, g1) ∧
      zip (rows X_) y_
      ≡ₚ zip (rows X32) (ones (shape0 X32))
         ++ zip (rows synth_X) (zeros (shape0 X32)).
Proof.
  eexists _, _, _. split; [vm_compute; reflexivity |].
  eapply (generate_discriminative_dataset_pairs X32 "bootstrap" (Seed 1234%Z));
    [exact wf_X32 | vm_compute; reflexivity].
Defined.

Lemma generate_discriminative_dataset_unknown_method_witness :
  generate_discriminative_dataset X32 "gaussian" (Seed 1234%Z)
  = (Raise (ValueError "method must be either `bootstrap` or `uniform`."),
     check_random_state (Seed 1234%Z)).
Proof.
  apply (generate_discriminative_dataset_unknown_method X32 "gaussian"
           (Seed 1234%Z)); [simpl; lia | discriminate | discriminate].
Defined.

Lemma generate_discriminative_dataset_bootstrap_values_witness :
  ∃ X_ y_ g',
    generate_discriminative_dataset X32 "bootstrap" (Seed 1234%Z)
    = (Ok (X_, y_), g') ∧
    ∀ c, c < shape1 X32 →
      ∃ X_column out,
        get_column X32 c = Ok X_column ∧ get_column X_ c = Ok out ∧
        length out = 2 * shape0 X32 ∧
        Forall (λ v, v ∈ X_column) out.
Proof.
  eexists _, _, _. split; [vm_compute; reflexivity |].
  eapply (generate_discriminative_dataset_bootstrap_values X32 (Seed 1234%Z));
    [exact wf_X32 | vm_compute; reflexivity].
Defined.


Lemma fit_unknown_method_witness :
  fit_transform (G := Z) (SK := recording)
    (__init__ (with_method default_config "gaussian")) X32 None None 2
  = (Raise (ValueError "method must be either `bootstrap` or `uniform`."),
     __init__ (with_method default_config "gaussian")) ∧
  fit (G := Z) (SK := recording)
    (__init__ (with_method default_config "gaussian")) X32 None None
  = (Raise (ValueError "method must be either `bootstrap` or `uniform`."),
     __init__ (with_method default_config "gaussian")).
Proof.
  apply (fit_unknown_method (G := Z) (SK := recording)
           (__init__ (with_method default_config "gaussian"))
           X32 X32 None None 2);
    [reflexivity | simpl; lia | discriminate | discriminate].
Defined.

Lemma uniform_no_rows_witness :
  generate_synthetic_features (mk_ndarray float64 0 2 []) "uniform" (Seed 12345%Z)
  = (Raise (ValueError "zero-size array to reduction operation minimum which has no identity"),
     check_random_state (Seed 12345%Z)) ∧
  generate_discriminative_dataset (mk_ndarray float64 0 2 []) "uniform" (Seed 12345%Z)
  = (Raise (ValueError "zero-size array to reduction operation minimum which has no identity"),
     check_random_state (Seed 12345%Z)).
Proof.
  apply (uniform_no_rows (mk_ndarray float64 0 2 []) (Seed 12345%Z));
    [repeat split; constructor | reflexivity | simpl; lia].
Defined.
